(** * hoaxy.sns.twitter.stream: the reconnect/backoff state machine

    A shallow embedding of [src/hoaxy/sns/twitter/stream.py]: the class
    [TwitterStream] with its methods [_backoff], [_reset_backoff],
    [process_one_line] and [stream].

    Numbers.  The backoff table mixes Python ints and floats; every
    value the default table can reach (multiples of 0.25 up to 16, and
    5*2^k, 60*2^k) is a dyadic rational that binary64 holds exactly, so
    delays are modelled as rationals kept in lowest terms.

    Effects.  A method is a function from the object [self] to an
    outcome (a value or a raised exception), the object after the call,
    and the events the call emitted (log records, sleeps, handler calls,
    connection events), in order. *)

From Stdlib Require Import ZArith QArith List Bool Ascii String Lia Lqa.
From stdpp Require Import base option gmap strings.
Import ListNotations.

Local Open Scope Z_scope.
Local Open Scope string_scope.

(** ** Python values *)

(** Arithmetic on delays: results are kept in lowest terms, so that two
    delays are equal as terms exactly when they are equal as numbers.
    The source computes with Python numbers, ints and binary64 floats:
    the exact sum or product is what it computes whenever that result is
    itself a binary64 number (see [on_grid] below), as it is all along
    the curves of the module's table. *)
Definition num_add (a b : Q) : Q := Qred (Qplus a b).
Definition num_mul (a b : Q) : Q := Qred (Qmult a b).
(** [a >= b] *)
Definition num_ge (a b : Q) : bool := Qle_bool b a.

Inductive pyfloat : Type :=
| Finite (q : Q)
| Inf (negative : bool)
| NaN.

(** What [json.loads] can return. A dict is kept as its items. *)
#[local] Set Warnings "-register-all".
Inductive py : Type :=
| PyNone
| PyBool (b : bool)
| PyInt (z : Z)
| PyFloat (x : pyfloat)
| PyStr (s : string)
| PyList (xs : list py)
| PyDict (items : list (string * py)).

(** The exceptions the module raises, catches or lets through.  The
    transport classes are those of [requests] and [socket] as the
    [except] clauses of [stream] tell them apart. *)
Inductive exn : Type :=
| ValueError (msg : string)
| KeyError (key : string)
| TypeError (msg : string)
| ZeroDivisionError
| UnboundLocalError (var : string)
| TwitterStreamError
| SystemExit (msg : string)
| ConnectTimeout
| ReadTimeout
| ConnectionError
| HTTPError (status_code : Z)
| SocketError
| OtherException (name : string).

Inductive level : Type := DEBUG | INFO | WARNING | ERROR.

Inductive logarg : Type :=
| ArgNum (q : Q)
| ArgInt (z : Z)
| ArgStr (s : string)
| ArgPy (v : py)
| ArgExn (e : exn).

(** A registered handler: its name and whether
    [isinstance(handler, QueueHandler)] holds. *)
Record handler : Type := {
  h_name : string;
  h_is_queue : bool
}.

Inductive event : Type :=
| Log (lv : level) (fmt : string) (args : list logarg)
| Sleep (secs : Q)
| IsAlive (i : nat) (answer : bool)
| ProcessOne (i : nat) (h : handler) (jd : py)
| Authenticate
| Post (resp : nat)
| PostFailed
| Close (resp : nat).

(** ** BACKOFF_PARAMS *)

(** One entry of the table: a dict with the keys ['time'], ['kind'],
    ['max'] and one of ['step'], ['factor']. *)
Record backoff_spec : Type := {
  p_time : Q;
  p_kind : string;
  p_step : option Q;
  p_factor : option Q;
  p_max : Q
}.

Definition BACKOFF_PARAMS : gmap string backoff_spec :=
  <["tcp" := {| p_time := 0; p_kind := "linear";
                p_step := Some (1 # 4); p_factor := None; p_max := 16 |}]>
  (<["http" := {| p_time := 5; p_kind := "exponential";
                  p_step := None; p_factor := Some (2 # 1); p_max := 320 |}]>
  (<["http_420" := {| p_time := 60; p_kind := "exponential";
                      p_step := None; p_factor := Some (2 # 1); p_max := 600 |}]>
   ∅)).

(** ** The object *)

Record TwitterStream : Type := {
  handlers : list handler;
  window_size : Z;
  _stall_timeout : Q;
  _backoff_sleep : option Q;
  _backoff_strategy : option string;
  _conn_timeout_sleep : Q;
  _counter : Z;
  _backoff_params : gmap string backoff_spec
}.

(** [__init__] *)
Definition init (hs : list handler) (window : Z) : TwitterStream := {|
  handlers := hs;
  window_size := window;
  _stall_timeout := 90;
  _backoff_sleep := None;
  _backoff_strategy := None;
  _conn_timeout_sleep := 1 # 2;
  _counter := 0;
  _backoff_params := BACKOFF_PARAMS
|}.

Definition set_backoff (sleep : option Q) (strategy : option string)
    (self : TwitterStream) : TwitterStream := {|
  handlers := handlers self;
  window_size := window_size self;
  _stall_timeout := _stall_timeout self;
  _backoff_sleep := sleep;
  _backoff_strategy := strategy;
  _conn_timeout_sleep := _conn_timeout_sleep self;
  _counter := _counter self;
  _backoff_params := _backoff_params self
|}.

Definition set_backoff_sleep (sleep : option Q) (self : TwitterStream) :=
  set_backoff sleep (_backoff_strategy self) self.

Definition set_counter (c : Z) (self : TwitterStream) : TwitterStream := {|
  handlers := handlers self;
  window_size := window_size self;
  _stall_timeout := _stall_timeout self;
  _backoff_sleep := _backoff_sleep self;
  _backoff_strategy := _backoff_strategy self;
  _conn_timeout_sleep := _conn_timeout_sleep self;
  _counter := c;
  _backoff_params := _backoff_params self
|}.

(** ** Methods as state-and-trace computations *)

Inductive outcome (A : Type) : Type :=
| Ret (a : A)
| Raise (e : exn).
Arguments Ret {A} a.
Arguments Raise {A} e.

Record run (A : Type) : Type := Run {
  out : outcome A;
  obj : TwitterStream;
  evs : list event
}.
Arguments Run {A} out obj evs.
Arguments out {A} r.
Arguments obj {A} r.
Arguments evs {A} r.

Definition M (A : Type) : Type := TwitterStream -> run A.

Definition ret {A} (a : A) : M A := fun self => Run (Ret a) self [].
Definition raise {A} (e : exn) : M A := fun self => Run (Raise e) self [].
Definition bind {A B} (m : M A) (k : A -> M B) : M B := fun self =>
  let r := m self in
  match out r with
  | Ret a => let r' := k a (obj r) in Run (out r') (obj r') (evs r ++ evs r')%list
  | Raise e => Run (Raise e) (obj r) (evs r)
  end.
Definition get : M TwitterStream := fun self => Run (Ret self) self [].
Definition modify (f : TwitterStream -> TwitterStream) : M unit :=
  fun self => Run (Ret tt) (f self) [].
Definition emit (e : event) : M unit := fun self => Run (Ret tt) self [e].

Notation "x <- m ;; k" := (bind m (fun x => k))
  (at level 100, m at next level, right associativity).
Notation "m ;;; k" := (bind m (fun _ => k))
  (at level 100, right associativity).

Definition log (lv : level) (fmt : string) (args : list logarg) : M unit :=
  emit (Log lv fmt args).
Definition time_sleep (secs : Q) : M unit := emit (Sleep secs).

(** [d[key]] on an entry of the table, for the two optional keys. *)
Definition getitem (key : string) (field : option Q) : M Q :=
  match field with
  | Some v => ret v
  | None => raise (KeyError key)
  end.

(** ** [_backoff] and [_reset_backoff] *)

Definition _backoff (strategy : string) : M unit :=
  self <- get ;;
  match _backoff_params self !! strategy with
  | None => raise (ValueError ("unknown strategy: " +:+ strategy))
  | Some params =>
      match _backoff_sleep self with
      | Some sleep =>
          if bool_decide (_backoff_strategy self = Some strategy) then
            (* continue with previous strategy *)
            if num_ge sleep (p_max params) then
              log ERROR "Reached maximum backoff time. Raising critical error!" [] ;;;
              raise TwitterStreamError
            else
              sleep' <- (if String.eqb (p_kind params) "linear"
                         then step <- getitem "step" (p_step params) ;;
                              ret (num_add sleep step)
                         else factor <- getitem "factor" (p_factor params) ;;
                              ret (num_mul sleep factor)) ;;
              modify (set_backoff_sleep (Some sleep')) ;;;
              log WARNING "Sleeping {:.2f}s as part of {} backoff."
                  [ArgNum sleep'; ArgStr (p_kind params)] ;;;
              time_sleep sleep'
          else
            modify (set_backoff (Some (p_time params)) (Some strategy)) ;;;
            time_sleep (p_time params)
      | None =>
          modify (set_backoff (Some (p_time params)) (Some strategy)) ;;;
          time_sleep (p_time params)
      end
  end.

Definition _reset_backoff : M unit := modify (set_backoff None None).

(** ** [process_one_line] *)

(** [type(v).__name__] *)
Definition type_name (v : py) : string :=
  match v with
  | PyNone => "NoneType"
  | PyBool _ => "bool"
  | PyInt _ => "int"
  | PyFloat _ => "float"
  | PyStr _ => "str"
  | PyList _ => "list"
  | PyDict _ => "dict"
  end.

Definition is_substring (k s : string) : bool :=
  match String.index 0 k s with
  | Some _ => true
  | None => false
  end.

(** [k in v] for a string [k]: key membership on a dict, element
    membership on a list, substring on a str, and a TypeError on the
    values that are no containers. *)
Definition contains (k : string) (v : py) : outcome bool :=
  match v with
  | PyDict items => Ret (existsb (fun kv => String.eqb (fst kv) k) items)
  | PyList xs =>
      Ret (existsb (fun x => match x with
                             | PyStr s => String.eqb s k
                             | _ => false
                             end) xs)
  | PyStr s => Ret (is_substring k s)
  | _ => Raise (TypeError ("argument of type '" +:+ type_name v
                           +:+ "' is not iterable"))
  end.

Definition py_in (k : string) (v : py) : M bool :=
  fun self => Run (contains k v) self [].

(** [a % b] on ints: the sign follows the divisor, as [Z.modulo] does. *)
Definition py_mod (a b : Z) : M Z :=
  if Z.eqb b 0 then raise ZeroDivisionError else ret (Z.modulo a b).

(** The result of [json.loads]. *)
Inductive decoded : Type :=
| Decoded (jd : py)
| JSONDecodeError (err : string).

(** *** A reading of [json.loads]

    [process_one_line] takes [json.loads] as it comes from the library,
    and the facts below hold for any such function.  [loads] is a reader
    for the JSON grammar as the Python decoder accepts it (strict
    control characters, [NaN] and the infinities allowed), used to run
    the methods on concrete lines.  A str is kept as its UTF-8 bytes and
    a float as the decimal it is written as. *)

Definition is_ws (c : ascii) : bool :=
  Ascii.eqb c " " || Ascii.eqb c "009" || Ascii.eqb c "010" || Ascii.eqb c "013".

Fixpoint skip_ws (s : string) : string :=
  match s with
  | String c r => if is_ws c then skip_ws r else s
  | EmptyString => s
  end.

Definition digit_of (c : ascii) : option Z :=
  let n := Z.of_nat (nat_of_ascii c) in
  if Z.leb 48 n && Z.leb n 57 then Some (n - 48) else None.

Definition hex_of (c : ascii) : option Z :=
  let n := Z.of_nat (nat_of_ascii c) in
  if Z.leb 48 n && Z.leb n 57 then Some (n - 48)
  else if Z.leb 65 n && Z.leb n 70 then Some (n - 55)
  else if Z.leb 97 n && Z.leb n 102 then Some (n - 87)
  else None.

(** The longest run of digits at the head of [s]: its value, its
    length, and what follows. *)
Fixpoint take_digits (acc : Z) (len : nat) (s : string) : Z * nat * string :=
  match s with
  | String c r =>
      match digit_of c with
      | Some d => take_digits (10 * acc + d) (S len) r
      | None => (acc, len, s)
      end
  | EmptyString => (acc, len, s)
  end.

Definition starts_with (p s : string) : option string :=
  if String.prefix p s
  then Some (String.substring (String.length p)
                             (String.length s - String.length p)%nat s)
  else None.

(** A number: an optional minus, an integer part without leading zero,
    then a fraction and an exponent, each taken only when complete. *)
Definition parse_number (s : string) : option (py * string) :=
  let '(neg, s1) := match s with
                    | String "-" r => (true, r)
                    | _ => (false, s)
                    end in
  let int_part :=
    match s1 with
    | String "0" r => Some (0, r)
    | String c _ =>
        match digit_of c with
        | Some _ => let '(v, _, r) := take_digits 0 0 s1 in Some (v, r)
        | None => None
        end
    | EmptyString => None
    end in
  match int_part with
  | None => None
  | Some (iv, s2) =>
      let '(frac, s3) :=
        match s2 with
        | String "." r =>
            let '(v, len, r') := take_digits 0 0 r in
            if Nat.eqb len 0 then (None, s2) else (Some (v, len), r')
        | _ => (None, s2)
        end in
      let exp_of (r : string) (sign : Z) :=
        let '(v, len, r') := take_digits 0 0 r in
        if Nat.eqb len 0 then (None, s3) else (Some (sign * v), r') in
      let '(exp, s4) :=
        match s3 with
        | String c r =>
            if Ascii.eqb c "e" || Ascii.eqb c "E" then
              match r with
              | String "+" r' => exp_of r' 1
              | String "-" r' => exp_of r' (-1)
              | _ => exp_of r 1
              end
            else (None, s3)
        | EmptyString => (None, s3)
        end in
      let sign := if (neg : bool) then -1 else 1 in
      match frac, exp with
      | None, None => Some (PyInt (sign * iv), s4)
      | _, _ =>
          let '(fv, flen) := match frac with
                             | Some p => p
                             | None => (0, 0%nat)
                             end in
          let mant := Qplus (inject_Z iv)
                            (Qmake fv (Pos.pow 10 (Pos.of_nat flen))) in
          let e := match exp with Some e => e | None => 0 end in
          Some (PyFloat (Finite (Qred (Qmult (inject_Z sign)
                                  (Qmult mant (Qpower (10 # 1) e))))), s4)
      end
  end.

Definition byte_of (n : Z) : ascii := ascii_of_nat (Z.to_nat n).

(** The UTF-8 bytes of a code point. *)
Definition utf8 (cp : Z) : string :=
  if Z.ltb cp 128 then String (byte_of cp) ""
  else if Z.ltb cp 2048 then
    String (byte_of (192 + cp / 64)) (String (byte_of (128 + cp mod 64)) "")
  else if Z.ltb cp 65536 then
    String (byte_of (224 + cp / 4096))
      (String (byte_of (128 + (cp / 64) mod 64))
         (String (byte_of (128 + cp mod 64)) ""))
  else
    String (byte_of (240 + cp / 262144))
      (String (byte_of (128 + (cp / 4096) mod 64))
         (String (byte_of (128 + (cp / 64) mod 64))
            (String (byte_of (128 + cp mod 64)) ""))).

Definition hex4 (s : string) : option (Z * string) :=
  match s with
  | String a (String b (String c (String d r))) =>
      match hex_of a, hex_of b, hex_of c, hex_of d with
      | Some x, Some y, Some z, Some w =>
          Some (4096 * x + 256 * y + 16 * z + w, r)
      | _, _, _, _ => None
      end
  | _ => None
  end.

(** The rest of a string literal, after its opening quote. *)
Fixpoint parse_string (fuel : nat) (s : string) : option (string * string) :=
  match fuel with
  | O => None
  | S fuel' =>
      match s with
      | EmptyString => None
      | String c r =>
          let more (bytes r' : string) :=
            match parse_string fuel' r' with
            | Some (str, rest) => Some (bytes +:+ str, rest)
            | None => None
            end in
          if Ascii.eqb c "034" then Some ("", r)
          else if Ascii.eqb c "\" then
            match r with
            | String e r' =>
                if Ascii.eqb e "034" then more (String e "") r'
                else if Ascii.eqb e "\" then more (String e "") r'
                else if Ascii.eqb e "/" then more (String e "") r'
                else if Ascii.eqb e "b" then more (String "008" "") r'
                else if Ascii.eqb e "f" then more (String "012" "") r'
                else if Ascii.eqb e "n" then more (String "010" "") r'
                else if Ascii.eqb e "r" then more (String "013" "") r'
                else if Ascii.eqb e "t" then more (String "009" "") r'
                else if Ascii.eqb e "u" then
                  match hex4 r' with
                  | Some (hi, r'') =>
                      let pair :=
                        if Z.leb 55296 hi && Z.leb hi 56319 then
                          match r'' with
                          | String "\" (String "u" r3) =>
                              match hex4 r3 with
                              | Some (lo, r4) =>
                                  if Z.leb 56320 lo && Z.leb lo 57343
                                  then Some (65536 + (hi - 55296) * 1024
                                             + (lo - 56320), r4)
                                  else None
                              | None => None
                              end
                          | _ => None
                          end
                        else None in
                      match pair with
                      | Some (cp, r4) => more (utf8 cp) r4
                      | None => more (utf8 hi) r''
                      end
                  | None => None
                  end
                else None
            | EmptyString => None
            end
          else if Z.ltb (Z.of_nat (nat_of_ascii c)) 32 then None
          else more (String c "") r
      end
  end.

(** [d[k] = v] on the items of a dict: a key already there keeps its
    place and takes the new value. *)
Fixpoint dict_set (k : string) (v : py) (items : list (string * py))
    : list (string * py) :=
  match items with
  | [] => [(k, v)]
  | (k', v') :: items' =>
      if String.eqb k' k then (k, v) :: items'
      else (k', v') :: dict_set k v items'
  end.

Fixpoint parse_value (fuel : nat) (s : string) : option (py * string) :=
  match fuel with
  | O => None
  | S fuel' =>
      let fix elems (n : nat) (acc : list py) (s : string) {struct n} :=
        match n with
        | O => None
        | S n' =>
            match parse_value fuel' s with
            | Some (v, r) =>
                match skip_ws r with
                | String "," r' => elems n' (acc ++ [v])%list (skip_ws r')
                | String "]" r' => Some (PyList (acc ++ [v])%list, r')
                | _ => None
                end
            | None => None
            end
        end in
      let fix members (n : nat) (acc : list (string * py)) (s : string)
          {struct n} :=
        match n with
        | O => None
        | S n' =>
            match s with
            | String "034" r =>
                match parse_string (S (String.length r)) r with
                | Some (k, r1) =>
                    match skip_ws r1 with
                    | String ":" r2 =>
                        match parse_value fuel' (skip_ws r2) with
                        | Some (v, r3) =>
                            match skip_ws r3 with
                            | String "," r4 =>
                                members n' (dict_set k v acc) (skip_ws r4)
                            | String "}" r4 =>
                                Some (PyDict (dict_set k v acc), r4)
                            | _ => None
                            end
                        | None => None
                        end
                    | _ => None
                    end
                | None => None
                end
            | _ => None
            end
        end in
      match s with
      | EmptyString => None
      | String c r =>
          if Ascii.eqb c "034" then
            match parse_string (S (String.length r)) r with
            | Some (str, rest) => Some (PyStr str, rest)
            | None => None
            end
          else if Ascii.eqb c "[" then
            match skip_ws r with
            | String "]" r' => Some (PyList [], r')
            | r' => elems (S (String.length r')) [] r'
            end
          else if Ascii.eqb c "{" then
            match skip_ws r with
            | String "}" r' => Some (PyDict [], r')
            | r' => members (S (String.length r')) [] r'
            end
          else
            match starts_with "null" s, starts_with "true" s,
                  starts_with "false" s with
            | Some rest, _, _ => Some (PyNone, rest)
            | _, Some rest, _ => Some (PyBool true, rest)
            | _, _, Some rest => Some (PyBool false, rest)
            | _, _, _ =>
                match starts_with "NaN" s, starts_with "Infinity" s,
                      starts_with "-Infinity" s with
                | Some rest, _, _ => Some (PyFloat NaN, rest)
                | _, Some rest, _ => Some (PyFloat (Inf false), rest)
                | _, _, Some rest => Some (PyFloat (Inf true), rest)
                | _, _, _ => parse_number s
                end
            end
      end
  end.

Definition loads (line : string) : decoded :=
  match parse_value (S (String.length line)) (skip_ws line) with
  | Some (jd, rest) =>
      match skip_ws rest with
      | EmptyString => Decoded jd
      | _ => JSONDecodeError "Extra data"
      end
  | None => JSONDecodeError "Expecting value"
  end.

(** [for handler in self.handlers: ...], from position [i] on.  The
    answers of [handler.is_alive()] come from the consumer threads:
    [alive i] is what the probe of the handler at position [i] answers
    during this call. *)
Fixpoint forward (alive : nat -> bool) (jd : py) (i : nat)
    (hs : list handler) : M unit :=
  match hs with
  | [] => ret tt
  | h :: hs' =>
      dead <- (if h_is_queue h
               then emit (IsAlive i (alive i)) ;;; ret (negb (alive i))
               else ret false) ;;
      if (dead : bool) then raise (SystemExit "Consumer thread dead")
      else emit (ProcessOne i h jd) ;;; forward alive jd (S i) hs'
  end.

(** [a and b] with [b] evaluated only when [a] is true. *)
Definition py_and (a b : M bool) : M bool :=
  x <- a ;; if (x : bool) then b else ret false.

Section Stream.

(** [json.loads], a library function, as far as [process_one_line]
    provides for it: it returns a value or raises [JSONDecodeError].  The
    other exceptions it can raise on a received line (UnicodeDecodeError
    on bytes that are not UTF-8, ValueError on an integer literal beyond
    the digit limit, RecursionError on deep nesting) are taken by no
    clause, here or in [stream]; a line on which it raises one of them
    is outside this embedding. *)
Variable json_loads : string -> decoded.

Definition process_one_line (line : string) (alive : nat -> bool) : M bool :=
  if String.eqb line "" then ret true
  else
    match json_loads line with
    | JSONDecodeError err =>
        log ERROR "Json loads error: %s, raw data: %s" [ArgStr err; ArgStr line] ;;;
        ret false
    | Decoded jd =>
        ok <- py_and (py_in "in_reply_to_status_id" jd)
                     (py_and (py_in "user" jd) (py_in "id" jd)) ;;
        if negb ok then
          log ERROR "Not status tweet: %s" [ArgPy jd] ;;;
          ret false
        else
          modify (fun self => set_counter (_counter self + 1) self) ;;;
          self <- get ;;
          r <- py_mod (_counter self) (window_size self) ;;
          (if Z.eqb r 0
           then log INFO "TwitterStreamer received %s tweets"
                    [ArgInt (_counter self)]
           else ret tt) ;;;
          forward alive jd 0 (handlers self) ;;;
          ret true
    end.

(** ** [stream] *)

(** One line as [resp.iter_lines()] yields it, with the answers the
    liveness probes give while it is processed. *)
Record line_in : Type := {
  text : string;
  alive : nat -> bool
}.

(** How the body of a response ends: the iterator is exhausted, or it
    raises. *)
Inductive ending : Type :=
| EndOfStream
| Broken (e : exn).

(** What the network does at one pass of the loop: [client.post] raises,
    or it returns response number [resp] whose body yields [body] and
    then ends with [fin]. *)
Inductive attempt : Type :=
| PostRaises (e : exn)
| PostReturns (resp : nat) (body : list line_in) (fin : ending).

(** [for line in resp.iter_lines(): ...] with the local [data_lines]. *)
Fixpoint iter_lines (body : list line_in) (data_lines : Z) : M Z :=
  match body with
  | [] => ret data_lines
  | l :: body' =>
      process_one_line (text l) (alive l) ;;;
      let data_lines := data_lines + 1 in
      if Z.leb 8 data_lines then
        log DEBUG "Reset backoff" [] ;;;
        _reset_backoff ;;;
        iter_lines body' 0
      else iter_lines body' data_lines
  end.

(** The [try] suite of one pass.  [_authenticate] is the event
    [Authenticate]: the credentials are taken to hold the four keys it
    reads. *)
Definition try_suite (a : attempt) : M unit :=
  emit Authenticate ;;;
  match a with
  | PostRaises e => emit PostFailed ;;; raise e
  | PostReturns resp body fin =>
      emit (Post resp) ;;;
      iter_lines body 0 ;;;
      match fin with
      | Broken e => raise e
      | EndOfStream =>
          log WARNING "Backing off.." [] ;;;
          _backoff "tcp"
      end
  end.

(** The [except] clauses, in their order; [None] when no clause matches.
    [ConnectTimeout] is a subclass of both [requests.Timeout] and
    [requests.ConnectionError] and is taken by the first clause. *)
Definition except_clauses (e : exn) : option (M unit) :=
  match e with
  | ConnectTimeout =>
      Some (self <- get ;;
            log WARNING "Timeout, retrying in %s.."
                [ArgNum (_conn_timeout_sleep self)] ;;;
            time_sleep (_conn_timeout_sleep self))
  | ReadTimeout =>
      Some (self <- get ;;
            log WARNING "Server did not send any data for %ss, backing off"
                [ArgNum (_stall_timeout self)] ;;;
            _backoff "tcp")
  | ConnectionError =>
      Some (log WARNING "Reconnecting to stream endpoint..." [] ;;;
            _backoff "tcp")
  | HTTPError status_code =>
      Some (if Z.eqb status_code 420
            then log WARNING "Got HTTP 420 Error. Backing off.." [] ;;;
                 _backoff "http_420"
            else log WARNING "Got HTTP Error. Backing off.." [] ;;;
                 _backoff "http")
  | SocketError =>
      Some (log WARNING "Got socket error: %s, reconnecting!"
                [ArgExn SocketError] ;;;
            _backoff "tcp")
  | _ => None
  end.

(** [try: m except ...: h] *)
Definition try_except {A} (m : M A) (h : exn -> option (M A)) : M A :=
  fun self =>
  let r := m self in
  match out r with
  | Ret a => r
  | Raise e =>
      match h e with
      | Some k => let r' := k (obj r) in Run (out r') (obj r') (evs r ++ evs r')%list
      | None => r
      end
  end.

(** [try: m finally: f]: [f] always runs; an exception of [f] replaces
    the outcome of [m]. *)
Definition try_finally {A} (m : M A) (f : M unit) : M A := fun self =>
  let r := m self in
  let r' := f (obj r) in
  match out r' with
  | Ret _ => Run (out r) (obj r') (evs r ++ evs r')%list
  | Raise e => Run (Raise e) (obj r') (evs r ++ evs r')%list
  end.

(** The local [resp] after the [try] suite: rebound when [client.post]
    returned, otherwise what it was ([None]: never assigned). *)
Definition resp_after (a : attempt) (resp : option nat) : option nat :=
  match a with
  | PostRaises _ => resp
  | PostReturns r _ _ => Some r
  end.

(** The [finally] suite. *)
Definition finally_suite (resp : option nat) : M unit :=
  log INFO "Request connection closed!" [] ;;;
  match resp with
  | None => raise (UnboundLocalError "resp")
  | Some r => emit (Close r)
  end.

(** One pass of [while True]. *)
Definition stream_pass (a : attempt) (resp : option nat) : M unit :=
  try_finally (try_except (try_suite a) except_clauses)
              (finally_suite (resp_after a resp)).

(** [while True] against a script of attempts.  The loop has no exit of
    its own: a result [Ret tt] says that the script is used up and the
    loop is still running. *)
Fixpoint stream_loop (script : list attempt) (resp : option nat) : M unit :=
  match script with
  | [] => ret tt
  | a :: script' =>
      stream_pass a resp ;;;
      stream_loop script' (resp_after a resp)
  end.

Definition stream (script : list attempt) : M unit :=
  log INFO "Started streaming." [] ;;;
  stream_loop script None.

End Stream.

(** ** Runs of the backoff controller *)

(** [n] calls of [_backoff] in a row, stopping at the first that raises. *)
Fixpoint backoff_calls (n : nat) (strategy : string) : M unit :=
  match n with
  | O => ret tt
  | S n' => _backoff strategy ;;; backoff_calls n' strategy
  end.

(** The durations slept, in order. *)
Fixpoint sleeps (l : list event) : list Q :=
  match l with
  | [] => []
  | Sleep d :: l' => d :: sleeps l'
  | _ :: l' => sleeps l'
  end.

(** The operations of the controller. *)
Inductive op : Type :=
| OpBackoff (strategy : string)
| OpReset.

Definition do_op (o : op) : M unit :=
  match o with
  | OpBackoff strategy => _backoff strategy
  | OpReset => _reset_backoff
  end.

(** The object after a sequence of operations; an operation that raises
    leaves the object as it is at the raise, and the next one runs on it. *)
Fixpoint do_ops (ops : list op) (self : TwitterStream) : TwitterStream :=
  match ops with
  | [] => self
  | o :: ops' => do_ops ops' (obj (do_op o self))
  end.

(** The category of the last call that computed a delay, [None] after a
    reset; [cur] is the one before [ops]. *)
Fixpoint last_used (ops : list op) (self : TwitterStream)
    (cur : option string) : option string :=
  match ops with
  | [] => cur
  | o :: ops' =>
      let r := do_op o self in
      last_used ops' (obj r)
        match o, out r with
        | OpReset, _ => None
        | OpBackoff strategy, Ret _ => Some strategy
        | OpBackoff _, Raise _ => cur
        end
  end.

(** The invariant of the backoff state. *)
Definition backoff_inv (self : TwitterStream) : Prop :=
  _backoff_sleep self = None <-> _backoff_strategy self = None.

(** The tcp entry of the table, and the delays [0, 1/4, 2/4, ...]. *)
Definition tcp_spec : backoff_spec :=
  {| p_time := 0; p_kind := "linear"; p_step := Some (1 # 4);
     p_factor := None; p_max := 16 |}.

Definition quarter_steps (n : nat) : list Q :=
  map (fun k => Qred (Z.of_nat k # 4)) (seq 0 n).

(** ** Observations on [process_one_line] *)

(** The test of line 163 as a value: the three [in] tests, left to
    right, stopping at the first that is false or raises. *)
Definition is_status (jd : py) : outcome bool :=
  match contains "in_reply_to_status_id" jd with
  | Ret true =>
      match contains "user" jd with
      | Ret true => contains "id" jd
      | o => o
      end
  | o => o
  end.

(** Every QueueHandler from position [i] on answers alive. *)
Fixpoint queues_alive (alive : nat -> bool) (i : nat) (hs : list handler)
    : bool :=
  match hs with
  | [] => true
  | h :: hs' =>
      (negb (h_is_queue h) || alive i) && queues_alive alive (S i) hs'
  end.

(** The events of forwarding [jd] to the handlers [hs], registered from
    position [i] on, when all of them are alive. *)
Fixpoint forwarded (jd : py) (i : nat) (hs : list handler) : list event :=
  match hs with
  | [] => []
  | h :: hs' =>
      ((if h_is_queue h then [IsAlive i true] else [])
         ++ ProcessOne i h jd :: forwarded jd (S i) hs')%list
  end.

(** The calls of [process_one] in a trace, in order. *)
Fixpoint process_one_calls (l : list event) : list (nat * handler * py) :=
  match l with
  | [] => []
  | ProcessOne i h jd :: l' => (i, h, jd) :: process_one_calls l'
  | _ :: l' => process_one_calls l'
  end.

(** One call per registered handler, in registration order. *)
Fixpoint registered (jd : py) (i : nat) (hs : list handler)
    : list (nat * handler * py) :=
  match hs with
  | [] => []
  | h :: hs' => (i, h, jd) :: registered jd (S i) hs'
  end.

Definition progress_log (c : Z) : event :=
  Log INFO "TwitterStreamer received %s tweets" [ArgInt c].

(** The line of the scenario of the specification, a record with the
    three fields. *)
Definition quote : string := String "034" EmptyString.

Definition status_line : string :=
  "{" +:+ quote +:+ "user" +:+ quote +:+ ":{}, "
      +:+ quote +:+ "id" +:+ quote +:+ ":1, "
      +:+ quote +:+ "in_reply_to_status_id" +:+ quote +:+ ":null}".

Definition status_record : py :=
  PyDict [("user", PyDict []); ("id", PyInt 1);
          ("in_reply_to_status_id", PyNone)].

Definition queue_handler : handler :=
  {| h_name := "queue"; h_is_queue := true |}.

Definition file_handler : handler :=
  {| h_name := "file"; h_is_queue := false |}.

(** ** Observations on [stream] *)

(** The transient transport faults. *)
Definition transient (e : exn) : bool :=
  match e with
  | ConnectTimeout | ReadTimeout | ConnectionError | SocketError => true
  | _ => false
  end.

(** The run ends by raising a transient transport fault. *)
Definition raises_transient {A} (r : run A) : bool :=
  match out r with
  | Raise e => transient e
  | Ret _ => false
  end.

(** The run [r], with the events [l] before its own. *)
Definition after {A} (l : list event) (r : run A) : run A :=
  Run (out r) (obj r) (l ++ evs r)%list.

Definition closed_log : event := Log INFO "Request connection closed!" [].

Definition reset_log : event := Log DEBUG "Reset backoff" [].

(** How often the backoff was reset from the body loop. *)
Fixpoint resets (l : list event) : nat :=
  match l with
  | [] => O
  | Log DEBUG _ _ :: l' => S (resets l')
  | _ :: l' => resets l'
  end.

(** The events on the connection itself. *)
Definition connection_event (e : event) : bool :=
  match e with
  | Authenticate | Post _ | PostFailed | Close _ => true
  | _ => false
  end.

Definition off_connection (l : list event) : bool :=
  forallb (fun e => negb (connection_event e)) l.

(** [process_one_line] returns on this line (True or False) rather than
    raising, for the handlers [hs] and the window size [ws]. *)
Definition line_returns (json_loads : string -> decoded)
    (hs : list handler) (ws : Z) (l : line_in) : bool :=
  if String.eqb (text l) "" then true
  else
    match json_loads (text l) with
    | JSONDecodeError _ => true
    | Decoded jd =>
        match is_status jd with
        | Raise _ => false
        | Ret false => true
        | Ret true => negb (Z.eqb ws 0) && queues_alive (alive l) 0 hs
        end
    end.

(** A keep-alive: an empty line. *)
Definition keep_alive : line_in :=
  {| text := EmptyString; alive := fun _ => true |}.

(** A liveness probe that answered not alive. *)
Definition dead_probe (e : event) : bool :=
  match e with
  | IsAlive _ false => true
  | _ => false
  end.

Definition consumer_dead : exn := SystemExit "Consumer thread dead".

(** No probe in the trace answered not alive. *)
Definition probes_alive (l : list event) : Prop :=
  existsb dead_probe l = false.

(** The run stopped at a probe that answered not alive: that probe is
    its last event and SystemExit its outcome. *)
Definition stopped_at_probe {A} (r : run A) : Prop :=
  out r = Raise consumer_dead
  /\ exists pre i, evs r = (pre ++ [IsAlive i false])%list /\ probes_alive pre.

(** A computation that either sees only live consumers or stops at the
    first dead one. *)
Definition probe_safe {A} (m : M A) : Prop :=
  forall self, probes_alive (evs (m self)) \/ stopped_at_probe (m self).

(** The session ended at a dead consumer: after the probe, nothing but
    the closing of the response. *)
Definition ended_at_probe {A} (r : run A) : Prop :=
  out r = Raise consumer_dead
  /\ exists pre i resp,
       evs r = (pre ++ [IsAlive i false; closed_log; Close resp])%list
       /\ probes_alive pre.

(** ** Further observations *)

(** [self._backoff_params = table]: the table is an attribute of the
    object, set from [BACKOFF_PARAMS] by [__init__]. *)
Definition set_params (table : gmap string backoff_spec)
    (self : TwitterStream) : TwitterStream := {|
  handlers := handlers self;
  window_size := window_size self;
  _stall_timeout := _stall_timeout self;
  _backoff_sleep := _backoff_sleep self;
  _backoff_strategy := _backoff_strategy self;
  _conn_timeout_sleep := _conn_timeout_sleep self;
  _counter := _counter self;
  _backoff_params := table
|}.

(** What a session never changes: the handlers, the window size, the
    two timeouts and the table. *)
Definition same_configuration (self self' : TwitterStream) : Prop :=
  handlers self' = handlers self
  /\ window_size self' = window_size self
  /\ _stall_timeout self' = _stall_timeout self
  /\ _conn_timeout_sleep self' = _conn_timeout_sleep self
  /\ _backoff_params self' = _backoff_params self.

(** The handlers the loop of lines 169-172 gets to: those before the
    first QueueHandler that is not alive. *)
Fixpoint reached (alive : nat -> bool) (i : nat) (hs : list handler)
    : list handler :=
  match hs with
  | [] => []
  | h :: hs' =>
      if h_is_queue h && negb (alive i) then []
      else h :: reached alive (S i) hs'
  end.

(** The values that are no containers. *)
Definition is_scalar (jd : py) : bool :=
  match jd with
  | PyNone | PyBool _ | PyInt _ | PyFloat _ => true
  | _ => false
  end.

(** The line is counted: it is not empty, decodes, and passes the test
    of line 163. *)
Definition is_record (json_loads : string -> decoded) (line : string)
    : bool :=
  negb (String.eqb line "")
  && match json_loads line with
     | Decoded jd =>
         match is_status jd with
         | Ret true => true
         | _ => false
         end
     | JSONDecodeError _ => false
     end.

(** The records of a body, in the order of their lines. *)
Fixpoint records (json_loads : string -> decoded) (body : list line_in)
    : list py :=
  match body with
  | [] => []
  | l :: body' =>
      match json_loads (text l) with
      | Decoded jd =>
          if is_record json_loads (text l)
          then jd :: records json_loads body'
          else records json_loads body'
      | JSONDecodeError _ => records json_loads body'
      end
  end.

(** The exception the network raises in an attempt, if any. *)
Definition network_fault (a : attempt) : option exn :=
  match a with
  | PostRaises e => Some e
  | PostReturns _ _ (Broken e) => Some e
  | PostReturns _ _ EndOfStream => None
  end.

(** The computation [m] keeps the property [I] of the object, and
    raises only exceptions in [X]. *)
Definition keeps {A} (I : TwitterStream -> Prop) (X : exn -> Prop)
    (m : M A) : Prop :=
  forall self, I self ->
    I (obj (m self)) /\ forall e, out (m self) = Raise e -> X e.

(** The categories [stream] calls [_backoff] with. *)
Definition categories : list string := ["tcp"; "http"; "http_420"].

(** The endings of a body that [stream] answers with a backoff under
    tcp. *)
Definition tcp_ending (fin : ending) : bool :=
  match fin with
  | EndOfStream => true
  | Broken ReadTimeout | Broken ConnectionError | Broken SocketError => true
  | Broken _ => false
  end.

(** A connection that proves healthy: at least 8 lines, all coming back
    from [process_one_line], then an ending of the tcp kind. *)
Definition healthy (json_loads : string -> decoded) (hs : list handler)
    (ws : Z) (a : attempt) : bool :=
  match a with
  | PostReturns _ body fin =>
      Nat.leb 8 (length body)
      && forallb (line_returns json_loads hs ws) body
      && tcp_ending fin
  | PostRaises _ => false
  end.

(** A connection that ends, in the tcp way, before its 8th line. *)
Definition short_lived (json_loads : string -> decoded) (hs : list handler)
    (ws : Z) (a : attempt) : bool :=
  match a with
  | PostReturns _ body fin =>
      Nat.ltb (length body) 8
      && forallb (line_returns json_loads hs ws) body
      && tcp_ending fin
  | PostRaises _ => false
  end.

(** ** Delays that binary64 holds exactly *)

(** The values [n / 2^k] with [0 <= n <= 2^53] and [k <= 1074] are all
    binary64 numbers.  A sum or product of two of them that is again
    such a value is computed without rounding by the floats of the
    source, and so is the one [num_add] or [num_mul] gives. *)
Definition grid_unit (k : N) : positive := Pos.shiftl 1 k.

Definition on_grid (k : N) (x : Q) : bool :=
  N.leb k 1074
  && Z.eqb ((Qnum x * Zpos (grid_unit k)) mod Zpos (Qden x)) 0
  && Z.leb 0 (Qnum x)
  && Z.leb (Qnum x * Zpos (grid_unit k)) (2 ^ 53 * Zpos (Qden x)).

(** * Properties *)

(** ** The arithmetic of delays *)

Lemma num_ge_spec (a b : Q) : num_ge a b = true <-> (b <= a)%Q.
Proof. unfold num_ge. apply Qle_bool_iff. Qed.

Lemma num_add_spec (a b : Q) : (num_add a b == a + b)%Q.
Proof. unfold num_add. apply Qred_correct. Qed.

Lemma num_mul_spec (a b : Q) : (num_mul a b == a * b)%Q.
Proof. unfold num_mul. apply Qred_correct. Qed.

(** ** The backoff controller *)

Section BackoffEquations.

Variable self : TwitterStream.
Variable strategy : string.

Lemma backoff_unknown :
  _backoff_params self !! strategy = None ->
  _backoff strategy self
  = Run (Raise (ValueError ("unknown strategy: " +:+ strategy))) self [].
Proof.
  intros Hp. unfold _backoff, bind, get. simpl. rewrite Hp. reflexivity.
Qed.

Variable params : backoff_spec.
Hypothesis Hparams : _backoff_params self !! strategy = Some params.

Lemma backoff_start :
  _backoff_sleep self = None \/ _backoff_strategy self <> Some strategy ->
  _backoff strategy self
  = Run (Ret tt) (set_backoff (Some (p_time params)) (Some strategy) self)
        [Sleep (p_time params)].
Proof.
  intros Hfirst. unfold _backoff, bind, get. simpl. rewrite Hparams.
  destruct (_backoff_sleep self) as [sleep|]; [|reflexivity].
  destruct Hfirst as [Hn|Hne]; [discriminate|].
  rewrite bool_decide_eq_false_2 by exact Hne. reflexivity.
Qed.

Variable sleep : Q.
Hypothesis Hsleep : _backoff_sleep self = Some sleep.
Hypothesis Hstrategy : _backoff_strategy self = Some strategy.

Lemma backoff_ceiling :
  num_ge sleep (p_max params) = true ->
  _backoff strategy self
  = Run (Raise TwitterStreamError) self
        [Log ERROR "Reached maximum backoff time. Raising critical error!" []].
Proof.
  intros Hge. unfold _backoff, bind, get. simpl. rewrite Hparams, Hsleep.
  rewrite bool_decide_eq_true_2 by exact Hstrategy. rewrite Hge. reflexivity.
Qed.

Lemma backoff_linear (step : Q) :
  num_ge sleep (p_max params) = false ->
  p_kind params = "linear" ->
  p_step params = Some step ->
  _backoff strategy self
  = Run (Ret tt) (set_backoff_sleep (Some (num_add sleep step)) self)
        [Log WARNING "Sleeping {:.2f}s as part of {} backoff."
             [ArgNum (num_add sleep step); ArgStr "linear"];
         Sleep (num_add sleep step)].
Proof.
  intros Hlt Hkind Hstep. unfold _backoff, bind, get. simpl.
  rewrite Hparams, Hsleep.
  rewrite bool_decide_eq_true_2 by exact Hstrategy.
  rewrite Hlt, Hkind, Hstep. reflexivity.
Qed.

Lemma backoff_exponential (factor : Q) :
  num_ge sleep (p_max params) = false ->
  p_kind params <> "linear" ->
  p_factor params = Some factor ->
  _backoff strategy self
  = Run (Ret tt) (set_backoff_sleep (Some (num_mul sleep factor)) self)
        [Log WARNING "Sleeping {:.2f}s as part of {} backoff."
             [ArgNum (num_mul sleep factor); ArgStr (p_kind params)];
         Sleep (num_mul sleep factor)].
Proof.
  intros Hlt Hkind Hfactor. unfold _backoff, bind, get. simpl.
  rewrite Hparams, Hsleep.
  rewrite bool_decide_eq_true_2 by exact Hstrategy.
  rewrite Hlt. apply String.eqb_neq in Hkind. rewrite Hkind, Hfactor.
  reflexivity.
Qed.

End BackoffEquations.

Local Ltac raised := left; eexists; split; reflexivity.
Local Ltac returned :=
  right; split; [reflexivity|split; [eexists; reflexivity|simpl; auto]].

(** What one call of [_backoff] can do to the backoff state: it raises
    and leaves it alone, or it returns with a delay set and the called
    category active. *)
Lemma backoff_cases (self : TwitterStream) (strategy : string) :
  let r := _backoff strategy self in
  (exists e, out r = Raise e /\ obj r = self)
  \/ (out r = Ret tt
      /\ (exists d, _backoff_sleep (obj r) = Some d)
      /\ _backoff_strategy (obj r) = Some strategy).
Proof.
  unfold _backoff, bind, get. simpl.
  destruct (_backoff_params self !! strategy) as [params|]; simpl;
    [|raised].
  destruct (_backoff_sleep self) as [sleep|]; simpl; [|returned].
  case_bool_decide as Hactive; simpl; [|returned].
  destruct (num_ge sleep (p_max params)); simpl; [raised|].
  destruct (String.eqb (p_kind params) "linear"); simpl.
  - destruct (p_step params); simpl; [returned|raised].
  - destruct (p_factor params); simpl; [returned|raised].
Qed.

Lemma do_op_inv (o : op) (self : TwitterStream) :
  backoff_inv self ->
  backoff_inv (obj (do_op o self))
  /\ _backoff_strategy (obj (do_op o self))
     = match o, out (do_op o self) with
       | OpReset, _ => None
       | OpBackoff strategy, Ret _ => Some strategy
       | OpBackoff _, Raise _ => _backoff_strategy self
       end.
Proof.
  intros Hinv. destruct o as [strategy|]; cbn [do_op].
  - destruct (backoff_cases self strategy) as [(e & He & Hobj)|(Hr & (d & Hd) & Hs)].
    + rewrite He, Hobj. split; [exact Hinv|reflexivity].
    + rewrite Hr. split; [|exact Hs].
      unfold backoff_inv. rewrite Hd, Hs. split; discriminate.
  - split; [|reflexivity]. unfold backoff_inv. simpl. tauto.
Qed.

(** C1, as stated, fails: after 64 calls under tcp the delay is 15.75;
    the next call computes 16.0, which reaches the maximum 16, and yet
    it returns and sleeps 16.0 instead of raising. *)
Lemma backoff_tcp_sixteen_is_slept :
  let self := obj (backoff_calls 64 "tcp" (init [] 1000)) in
  _backoff_sleep self = Some (63 # 4)
  /\ _backoff_strategy self = Some "tcp"
  /\ num_ge (num_add (63 # 4) (1 # 4)) (p_max tcp_spec) = true
  /\ _backoff "tcp" self
     = Run (Ret tt) (set_backoff_sleep (Some 16%Q) self)
           [Log WARNING "Sleeping {:.2f}s as part of {} backoff."
                [ArgNum 16%Q; ArgStr "linear"];
            Sleep 16%Q].
Proof. vm_compute. repeat split. Qed.

(** C1, amended: a continuing call first checks the ceiling against the
    delay of the previous call, raising TwitterStreamError and leaving
    the state alone when that delay has reached the maximum; otherwise it
    grows the delay by the law of the category (linear: plus step,
    otherwise: times factor) and sleeps the new delay.  Under tcp the
    successive delays are 0, 0.25, ..., 15.75, 16.0, and the call after
    16.0 raises. *)
Theorem backoff_continuing_call :
  (forall (self : TwitterStream) (strategy : string) (params : backoff_spec)
          (sleep : Q),
      _backoff_params self !! strategy = Some params ->
      _backoff_sleep self = Some sleep ->
      _backoff_strategy self = Some strategy ->
      (num_ge sleep (p_max params) = true ->
       _backoff strategy self
       = Run (Raise TwitterStreamError) self
             [Log ERROR "Reached maximum backoff time. Raising critical error!" []])
      /\ (num_ge sleep (p_max params) = false ->
          forall step, p_kind params = "linear" -> p_step params = Some step ->
          _backoff strategy self
          = Run (Ret tt) (set_backoff_sleep (Some (num_add sleep step)) self)
                [Log WARNING "Sleeping {:.2f}s as part of {} backoff."
                     [ArgNum (num_add sleep step); ArgStr "linear"];
                 Sleep (num_add sleep step)])
      /\ (num_ge sleep (p_max params) = false ->
          forall factor, p_kind params <> "linear" ->
          p_factor params = Some factor ->
          _backoff strategy self
          = Run (Ret tt) (set_backoff_sleep (Some (num_mul sleep factor)) self)
                [Log WARNING "Sleeping {:.2f}s as part of {} backoff."
                     [ArgNum (num_mul sleep factor); ArgStr (p_kind params)];
                 Sleep (num_mul sleep factor)]))
  /\ (forall (hs : list handler) (window : Z),
        let r := backoff_calls 65 "tcp" (init hs window) in
        out r = Ret tt /\ sleeps (evs r) = quarter_steps 65)
  /\ (forall (hs : list handler) (window : Z),
        let r := backoff_calls 66 "tcp" (init hs window) in
        out r = Raise TwitterStreamError
        /\ sleeps (evs r) = quarter_steps 65
        /\ _backoff_sleep (obj r) = Some 16%Q).
Proof.
  split; [|split].
  - intros self strategy params sleep Hp Hs Hc. repeat split.
    + apply (backoff_ceiling _ _ _ Hp _ Hs Hc).
    + intros Hlt step. apply (backoff_linear _ _ _ Hp _ Hs Hc step Hlt).
    + intros Hlt factor. apply (backoff_exponential _ _ _ Hp _ Hs Hc factor Hlt).
  - intros hs window. vm_compute. split; reflexivity.
  - intros hs window. vm_compute. repeat split; reflexivity.
Qed.

Lemma backoff_continuing_call_witness :
  let self := obj (backoff_calls 65 "tcp" (init [] 1000)) in
  _backoff "tcp" self
  = Run (Raise TwitterStreamError) self
        [Log ERROR "Reached maximum backoff time. Raising critical error!" []].
Proof.
  intro self.
  apply (proj1 (proj1 backoff_continuing_call self "tcp" tcp_spec 16%Q
                      eq_refl eq_refl eq_refl)).
  reflexivity.
Defined.

(** C4: a call on a controller that is not backing off, or under a
    category other than the active one, does not look at the maximum: it
    sets the delay to the initial time of the called category, sleeps
    exactly that, and makes the category active, whatever the state was;
    and so does any call that follows [_reset_backoff]. *)
Theorem backoff_first_call (self : TwitterStream) (strategy : string)
    (params : backoff_spec) :
  _backoff_params self !! strategy = Some params ->
  (_backoff_sleep self = None \/ _backoff_strategy self <> Some strategy ->
   _backoff strategy self
   = Run (Ret tt) (set_backoff (Some (p_time params)) (Some strategy) self)
         [Sleep (p_time params)])
  /\ _backoff strategy (obj (_reset_backoff self))
     = Run (Ret tt) (set_backoff (Some (p_time params)) (Some strategy) self)
           [Sleep (p_time params)].
Proof.
  intros Hp. split.
  - apply backoff_start. exact Hp.
  - rewrite (backoff_start (obj (_reset_backoff self)) strategy params Hp).
    + reflexivity.
    + left. reflexivity.
Qed.

(** After five calls under http_420 the delay is 960, above every
    maximum of the table; a call under tcp still starts at 0. *)
Lemma backoff_first_call_witness :
  let self := obj (backoff_calls 5 "http_420" (init [] 1000)) in
  _backoff_sleep self = Some 960%Q
  /\ _backoff "tcp" self
     = Run (Ret tt) (set_backoff (Some 0%Q) (Some "tcp") self) [Sleep 0%Q].
Proof.
  intro self. split; [reflexivity|].
  apply (proj1 (backoff_first_call self "tcp" tcp_spec eq_refl)).
  right. discriminate.
Defined.

(** C9: after any sequence of [_backoff] calls (returning or raising)
    and resets, the delay is None exactly when the active category is,
    and the active category is the one of the last call that computed
    the delay. *)
Theorem backoff_state_invariant (ops : list op) (self : TwitterStream) :
  backoff_inv self ->
  backoff_inv (do_ops ops self)
  /\ _backoff_strategy (do_ops ops self)
     = last_used ops self (_backoff_strategy self).
Proof.
  revert self. induction ops as [|o ops IH]; intros self Hinv; simpl.
  - split; [exact Hinv|reflexivity].
  - destruct (do_op_inv o self Hinv) as [Hinv' Hs].
    destruct (IH _ Hinv') as [H1 H2]. split; [exact H1|].
    rewrite H2, Hs. destruct o; reflexivity.
Qed.

Lemma backoff_state_invariant_witness :
  let ops := [OpBackoff "http"; OpBackoff "http"; OpBackoff "udp";
              OpReset; OpBackoff "tcp"; OpBackoff "http_420"] in
  let self := init [] 1000 in
  backoff_inv (do_ops ops self)
  /\ _backoff_strategy (do_ops ops self)
     = last_used ops self (_backoff_strategy self).
Proof.
  intros ops self. apply (backoff_state_invariant ops self).
  unfold backoff_inv. simpl. tauto.
Defined.

(** C10: with the table of the module, a call under a category other
    than tcp, http and http_420 raises ValueError with the message
    "unknown strategy: <category>" and leaves the object as it was. *)
Theorem backoff_unknown_strategy (self : TwitterStream) (strategy : string) :
  _backoff_params self = BACKOFF_PARAMS ->
  strategy <> "tcp" -> strategy <> "http" -> strategy <> "http_420" ->
  _backoff strategy self
  = Run (Raise (ValueError ("unknown strategy: " +:+ strategy))) self [].
Proof.
  intros Htable H1 H2 H3. apply backoff_unknown. rewrite Htable.
  unfold BACKOFF_PARAMS.
  rewrite !lookup_insert_ne by congruence. apply lookup_empty.
Qed.

Lemma backoff_unknown_strategy_witness :
  _backoff "udp" (init [] 1000)
  = Run (Raise (ValueError "unknown strategy: udp")) (init [] 1000) [].
Proof.
  apply (backoff_unknown_strategy (init [] 1000) "udp");
    [reflexivity|discriminate|discriminate|discriminate].
Defined.

(** ** Processing one line *)

Lemma forwarded_calls (jd : py) (hs : list handler) (i : nat) :
  process_one_calls (forwarded jd i hs) = registered jd i hs.
Proof.
  revert i. induction hs as [|h hs IH]; intros i; simpl; [reflexivity|].
  destruct (h_is_queue h); simpl; rewrite IH; reflexivity.
Qed.

Lemma forwarded_no_log (jd : py) (hs : list handler) (i : nat)
    (lv : level) (fmt : string) (args : list logarg) :
  ~ In (Log lv fmt args) (forwarded jd i hs).
Proof.
  revert i. induction hs as [|h hs IH]; intros i; simpl; [tauto|].
  intros Hin. apply in_app_or in Hin. destruct Hin as [Hin|[Hin|Hin]].
  - destruct (h_is_queue h); simpl in Hin; [|tauto].
    destruct Hin as [Hin|[]]. discriminate.
  - discriminate.
  - exact (IH _ Hin).
Qed.

Lemma forward_alive (alive : nat -> bool) (jd : py) (hs : list handler)
    (i : nat) (self : TwitterStream) :
  queues_alive alive i hs = true ->
  forward alive jd i hs self = Run (Ret tt) self (forwarded jd i hs).
Proof.
  revert i. induction hs as [|h hs IH]; intros i Halive; simpl in *;
    [reflexivity|].
  apply andb_true_iff in Halive. destruct Halive as [Hh Hrest].
  unfold bind, emit, ret, raise. specialize (IH _ Hrest).
  destruct (h_is_queue h); simpl in *.
  - rewrite Hh. simpl. rewrite IH. reflexivity.
  - rewrite IH. reflexivity.
Qed.

Lemma forward_dead (alive : nat -> bool) (jd : py) (hs : list handler)
    (i : nat) (self : TwitterStream) :
  queues_alive alive i hs = false ->
  out (forward alive jd i hs self) = Raise (SystemExit "Consumer thread dead")
  /\ obj (forward alive jd i hs self) = self.
Proof.
  revert i. induction hs as [|h hs IH]; intros i Hdead; simpl in *;
    [discriminate|].
  unfold bind, emit, ret, raise.
  destruct (h_is_queue h); simpl in *.
  - destruct (alive i); simpl in *; [|split; reflexivity].
    destruct (IH _ Hdead) as [Ho Hs].
    destruct (out (forward alive jd (S i) hs self)); [discriminate|].
    simpl. split; [exact Ho|exact Hs].
  - destruct (IH _ Hdead) as [Ho Hs].
    destruct (out (forward alive jd (S i) hs self)); [discriminate|].
    simpl. split; [exact Ho|exact Hs].
Qed.

Lemma py_and_is_status (jd : py) (self : TwitterStream) :
  py_and (py_in "in_reply_to_status_id" jd)
         (py_and (py_in "user" jd) (py_in "id" jd)) self
  = Run (is_status jd) self [].
Proof.
  unfold py_and, py_in, bind, ret, is_status. simpl.
  destruct (contains "in_reply_to_status_id" jd) as [[|]|]; simpl;
    try reflexivity.
  destruct (contains "user" jd) as [[|]|]; reflexivity.
Qed.

Section LineFacts.

Variable json_loads : string -> decoded.
Variable line : string.
Variable alive : nat -> bool.
Variable self : TwitterStream.

(** Line 156: an empty line is a no-op. *)
Lemma empty_line_skipped :
  process_one_line json_loads "" alive self = Run (Ret true) self [].
Proof. reflexivity. Qed.

Hypothesis Hline : line <> "".

(** Lines 158-165: a line that does not decode, or whose value passes
    the [in] tests without all three being true, is logged and dropped. *)
Lemma undecodable_line_dropped (err : string) :
  json_loads line = JSONDecodeError err ->
  process_one_line json_loads line alive self
  = Run (Ret false) self
        [Log ERROR "Json loads error: %s, raw data: %s"
             [ArgStr err; ArgStr line]].
Proof.
  intros Hdec. unfold process_one_line.
  apply String.eqb_neq in Hline. rewrite Hline, Hdec. reflexivity.
Qed.

Lemma non_status_line_dropped (jd : py) :
  json_loads line = Decoded jd ->
  is_status jd = Ret false ->
  process_one_line json_loads line alive self
  = Run (Ret false) self [Log ERROR "Not status tweet: %s" [ArgPy jd]].
Proof.
  intros Hdec Hst. unfold process_one_line.
  apply String.eqb_neq in Hline. rewrite Hline, Hdec.
  unfold bind at 1. rewrite py_and_is_status, Hst. reflexivity.
Qed.

(** Line 163 on a value that is no container: the [in] test raises. *)
Lemma scalar_line_raises (jd : py) (e : exn) :
  json_loads line = Decoded jd ->
  is_status jd = Raise e ->
  process_one_line json_loads line alive self = Run (Raise e) self [].
Proof.
  intros Hdec Hst. unfold process_one_line.
  apply String.eqb_neq in Hline. rewrite Hline, Hdec.
  unfold bind at 1. rewrite py_and_is_status, Hst. reflexivity.
Qed.

(** Lines 166-173 for a record, before the handlers are reached. *)
Lemma status_line_counted (jd : py) :
  json_loads line = Decoded jd ->
  is_status jd = Ret true ->
  window_size self <> 0 ->
  let c := _counter self + 1 in
  let r := forward alive jd 0 (handlers self) (set_counter c self) in
  process_one_line json_loads line alive self
  = Run (match out r with Ret _ => Ret true | Raise e => Raise e end)
        (obj r)
        ((if Z.eqb (c mod window_size self) 0 then [progress_log c] else [])
           ++ evs r).
Proof.
  intros Hdec Hst Hws c r. unfold process_one_line.
  apply String.eqb_neq in Hline. rewrite Hline, Hdec.
  unfold bind at 1. rewrite py_and_is_status, Hst.
  unfold bind, modify, get, py_mod, log, emit, ret, raise. simpl.
  apply Z.eqb_neq in Hws. rewrite Hws. simpl.
  subst r c.
  destruct (Z.eqb ((_counter self + 1) mod window_size self) 0); simpl;
    destruct (forward alive jd 0 (handlers self)
                (set_counter (_counter self + 1) self)) as [[a|e] ob ev];
    simpl; rewrite ?app_nil_r; reflexivity.
Qed.

Lemma status_line_zero_window (jd : py) :
  json_loads line = Decoded jd ->
  is_status jd = Ret true ->
  window_size self = 0 ->
  process_one_line json_loads line alive self
  = Run (Raise ZeroDivisionError) (set_counter (_counter self + 1) self) [].
Proof.
  intros Hdec Hst Hws. unfold process_one_line.
  apply String.eqb_neq in Hline. rewrite Hline, Hdec.
  unfold bind at 1. rewrite py_and_is_status, Hst.
  unfold bind, modify, get, py_mod, log, emit, ret, raise. simpl.
  rewrite Hws. reflexivity.
Qed.

End LineFacts.

(** C7, as stated, fails: the line of the scenario decodes to a record
    with the three fields, and yet, with a QueueHandler that is not
    alive, the call raises SystemExit instead of returning True, and the
    handlers from the dead one on are not called; with a window size of
    0 the call raises ZeroDivisionError and calls no handler. *)
Lemma status_line_not_forwarded :
  loads status_line = Decoded status_record
  /\ contains "in_reply_to_status_id" status_record = Ret true
  /\ contains "user" status_record = Ret true
  /\ contains "id" status_record = Ret true
  /\ (let self := init [file_handler; queue_handler; file_handler] 1000 in
      process_one_line loads status_line (fun _ => false) self
      = Run (Raise (SystemExit "Consumer thread dead")) (set_counter 1 self)
            [ProcessOne 0 file_handler status_record; IsAlive 1 false])
  /\ (let self := init [file_handler] 0 in
      process_one_line loads status_line (fun _ => true) self
      = Run (Raise ZeroDivisionError) (set_counter 1 self) []).
Proof. vm_compute. repeat split. Qed.

(** C7, amended: for a non-empty line that decodes to a value on which
    the three [in] tests are true, with a window size other than 0, a
    counter that is not negative and every registered QueueHandler
    alive when it is probed, [process_one_line] returns True, adds
    exactly 1 to the counter, calls [process_one] of every registered
    handler exactly once in registration order, and logs progress
    exactly when the new counter is a positive multiple of the window
    size, with that counter and no other. *)
Theorem status_line_forwarded (json_loads : string -> decoded)
    (line : string) (alive : nat -> bool) (self : TwitterStream) (jd : py) :
  line <> "" ->
  json_loads line = Decoded jd ->
  contains "in_reply_to_status_id" jd = Ret true ->
  contains "user" jd = Ret true ->
  contains "id" jd = Ret true ->
  window_size self <> 0 ->
  0 <= _counter self ->
  queues_alive alive 0 (handlers self) = true ->
  let c := _counter self + 1 in
  let r := process_one_line json_loads line alive self in
  r = Run (Ret true) (set_counter c self)
          ((if Z.eqb (c mod window_size self) 0 then [progress_log c] else [])
             ++ forwarded jd 0 (handlers self))
  /\ process_one_calls (evs r) = registered jd 0 (handlers self)
  /\ (In (progress_log c) (evs r) <-> 0 < c /\ Z.divide (window_size self) c)
  /\ (forall c', In (progress_log c') (evs r) -> c' = c).
Proof.
  intros Hline Hdec H1 H2 H3 Hws Hc Halive c r.
  assert (Hst : is_status jd = Ret true).
  { unfold is_status. rewrite H1, H2. exact H3. }
  assert (Hr : r = Run (Ret true) (set_counter c self)
                 ((if Z.eqb (c mod window_size self) 0
                   then [progress_log c] else [])
                    ++ forwarded jd 0 (handlers self))).
  { subst r c. rewrite (status_line_counted _ _ _ _ Hline jd Hdec Hst Hws).
    cbv zeta. rewrite (forward_alive alive jd (handlers self) 0 _ Halive).
    reflexivity. }
  split; [exact Hr|]. rewrite Hr. cbn [evs].
  assert (Hcalls : forall pre, (pre = [] \/ pre = [progress_log c]) ->
            process_one_calls (pre ++ forwarded jd 0 (handlers self))
            = registered jd 0 (handlers self)).
  { intros pre [->| ->]; simpl; apply forwarded_calls. }
  destruct (Z.eqb_spec (c mod window_size self) 0) as [Hmod|Hmod].
  - split; [apply Hcalls; right; reflexivity|]. split; [split|].
    + intros _. split; [subst c; lia|].
      apply Z.mod_divide; assumption.
    + intros _. left. reflexivity.
    + intros c' [Heq|Hin].
      * inversion Heq. reflexivity.
      * exfalso. exact (forwarded_no_log _ _ _ _ _ _ Hin).
  - split; [apply Hcalls; left; reflexivity|]. split; [split|].
    + intros Hin. exfalso. exact (forwarded_no_log _ _ _ _ _ _ Hin).
    + intros [_ Hdiv]. exfalso. apply Hmod. apply Z.mod_divide; assumption.
    + intros c' Hin. exfalso. exact (forwarded_no_log _ _ _ _ _ _ Hin).
Qed.

Lemma status_line_forwarded_witness :
  let self := set_counter 1 (init [file_handler; queue_handler] 2) in
  process_one_line loads status_line (fun _ => true) self
  = Run (Ret true) (set_counter 2 self)
        [progress_log 2; ProcessOne 0 file_handler status_record;
         IsAlive 1 true; ProcessOne 1 queue_handler status_record].
Proof.
  intro self.
  refine (proj1 (status_line_forwarded loads status_line (fun _ => true) self
                   status_record _ _ _ _ _ _ _ _));
    solve [reflexivity | discriminate].
Defined.

(** C8 at the line [1]: it decodes to the int 1, the test
    ['in_reply_to_status_id' in jd] raises TypeError, and the exception
    leaves [process_one_line] and [stream]; the second response of the
    script is never asked for. *)
Theorem scalar_line_stops_session (alive : nat -> bool)
    (hs : list handler) (window : Z) :
  loads "1" = Decoded (PyInt 1)
  /\ (forall self,
        process_one_line loads "1" alive self
        = Run (Raise (TypeError "argument of type 'int' is not iterable"))
              self [])
  /\ stream loads
       [PostReturns 0 [{| text := "1"; alive := alive |}] EndOfStream;
        PostReturns 1 [] EndOfStream]
       (init hs window)
     = Run (Raise (TypeError "argument of type 'int' is not iterable"))
           (init hs window)
           [Log INFO "Started streaming." []; Authenticate; Post 0;
            Log INFO "Request connection closed!" []; Close 0].
Proof. repeat split. Qed.

(** The three lines of the scenario of the specification: the record
    is counted and forwarded, the line without the fields is logged and
    dropped, the empty line does nothing. *)
Lemma scenario_lines :
  let self := init [file_handler] 1000 in
  let short := "{" +:+ quote +:+ "id" +:+ quote +:+ ":1}" in
  process_one_line loads status_line (fun _ => true) self
  = Run (Ret true) (set_counter 1 self)
        [ProcessOne 0 file_handler status_record]
  /\ process_one_line loads short (fun _ => true) self
     = Run (Ret false) self
           [Log ERROR "Not status tweet: %s" [ArgPy (PyDict [("id", PyInt 1)])]]
  /\ process_one_line loads "" (fun _ => true) self = Run (Ret true) self [].
Proof. vm_compute. repeat split. Qed.

(** ** Sequencing *)

Lemma bind_get {A} (k : TwitterStream -> M A) (self : TwitterStream) :
  bind get k self = k self self.
Proof.
  unfold bind, get. simpl. destruct (k self self) as [[a|e] o l]; reflexivity.
Qed.

Lemma bind_emit {A} (ev : event) (m : M A) (self : TwitterStream) :
  bind (emit ev) (fun _ => m) self = after [ev] (m self).
Proof.
  unfold bind, emit, after. simpl. destruct (m self) as [[a|e] o l]; reflexivity.
Qed.

Lemma bind_log {A} (lv : level) (fmt : string) (args : list logarg)
    (m : M A) (self : TwitterStream) :
  bind (log lv fmt args) (fun _ => m) self = after [Log lv fmt args] (m self).
Proof. apply bind_emit. Qed.

(** ** The session loop *)

(** The exceptions [_backoff] can raise. *)
Lemma backoff_raises (self : TwitterStream) (strategy : string) (e : exn) :
  out (_backoff strategy self) = Raise e ->
  e = TwitterStreamError \/ (exists m, e = ValueError m)
  \/ (exists k, e = KeyError k).
Proof.
  unfold _backoff, bind, get. simpl.
  destruct (_backoff_params self !! strategy) as [params|]; simpl;
    [|intros [= <-]; eauto].
  destruct (_backoff_sleep self) as [sleep|]; simpl; [|discriminate].
  destruct (bool_decide (_backoff_strategy self = Some strategy)); simpl;
    [|discriminate].
  destruct (num_ge sleep (p_max params)); simpl; [intros [= <-]; eauto|].
  destruct (String.eqb (p_kind params) "linear"); simpl.
  - destruct (p_step params); simpl; [discriminate|intros [= <-]; eauto].
  - destruct (p_factor params); simpl; [discriminate|intros [= <-]; eauto].
Qed.

Lemma backoff_not_transient (self : TwitterStream) (strategy : string) :
  raises_transient (_backoff strategy self) = false.
Proof.
  unfold raises_transient.
  destruct (out (_backoff strategy self)) as [u|e] eqn:Hout; [reflexivity|].
  destruct (backoff_raises _ _ _ Hout) as [->|[[m ->]|[k ->]]]; reflexivity.
Qed.

Lemma after_not_transient {A} (l : list event) (r : run A) :
  raises_transient (after l r) = raises_transient r.
Proof. reflexivity. Qed.

(** Every transient fault has its [except] clause, and no clause ends
    by raising one. *)
Lemma except_clauses_absorb (e : exn) :
  match except_clauses e with
  | Some k => forall self, raises_transient (k self) = false
  | None => transient e = false
  end.
Proof.
  destruct e; simpl; try reflexivity; intros self;
    rewrite ?bind_get, ?bind_log, ?after_not_transient.
  - apply backoff_not_transient.
  - apply backoff_not_transient.
  - destruct (Z.eqb status_code 420);
      rewrite bind_log, after_not_transient; apply backoff_not_transient.
  - apply backoff_not_transient.
Qed.

Section SessionFacts.

Variable json_loads : string -> decoded.

Lemma try_except_not_transient (a : attempt) (self : TwitterStream) :
  raises_transient (try_except (try_suite json_loads a) except_clauses self)
  = false.
Proof.
  unfold try_except, raises_transient.
  destruct (out (try_suite json_loads a self)) as [u|e] eqn:Hout.
  - rewrite Hout. reflexivity.
  - pose proof (except_clauses_absorb e) as Habs.
    destruct (except_clauses e) as [k|].
    + simpl. apply (Habs (obj (try_suite json_loads a self))).
    + rewrite Hout. exact Habs.
Qed.

Lemma stream_pass_not_transient (a : attempt) (resp : option nat)
    (self : TwitterStream) :
  raises_transient (stream_pass json_loads a resp self) = false.
Proof.
  unfold stream_pass, try_finally.
  pose proof (try_except_not_transient a self) as Hte.
  set (r := try_except (try_suite json_loads a) except_clauses self) in *.
  unfold finally_suite, bind, log, emit, raise. simpl.
  destruct (resp_after a resp); simpl; [exact Hte|reflexivity].
Qed.

Lemma stream_loop_not_transient (script : list attempt) (resp : option nat)
    (self : TwitterStream) :
  raises_transient (stream_loop json_loads script resp self) = false.
Proof.
  revert resp self. induction script as [|a script IH]; intros resp self;
    [reflexivity|].
  cbn [stream_loop]. unfold bind.
  pose proof (stream_pass_not_transient a resp self) as Hpass.
  unfold raises_transient in Hpass |- *.
  destruct (out (stream_pass json_loads a resp self)) as [u|e]; simpl.
  - apply (IH (resp_after a resp)).
  - exact Hpass.
Qed.

(** The [finally] suite of a pass whose [client.post] returned. *)
Lemma stream_pass_connected (resp : nat) (body : list line_in) (fin : ending)
    (prev : option nat) (self : TwitterStream) :
  let r := try_except (try_suite json_loads (PostReturns resp body fin))
                      except_clauses self in
  stream_pass json_loads (PostReturns resp body fin) prev self
  = Run (out r) (obj r) (evs r ++ [closed_log; Close resp]).
Proof. reflexivity. Qed.

End SessionFacts.

(** C2: a pass of the loop in which [client.post] returned a response
    ends, whatever the body did, by closing that response, before any
    event of a later pass; and whatever the network does, the exception
    that leaves [stream], if any, is no connect timeout, read timeout,
    connection error or socket error. *)
Theorem connection_closed_and_faults_absorbed (json_loads : string -> decoded) :
  (forall resp body fin prev self,
      exists pre,
        evs (stream_pass json_loads (PostReturns resp body fin) prev self)
        = (pre ++ [closed_log; Close resp])%list)
  /\ (forall resp body fin script prev self,
        let pass := stream_pass json_loads (PostReturns resp body fin)
                                prev self in
        exists pre,
          evs (stream_loop json_loads (PostReturns resp body fin :: script)
                           prev self)
          = (pre ++ [closed_log; Close resp]
               ++ match out pass with
                  | Ret _ => evs (stream_loop json_loads script (Some resp)
                                              (obj pass))
                  | Raise _ => []
                  end)%list)
  /\ (forall script self,
        raises_transient (stream json_loads script self) = false).
Proof.
  split; [|split].
  - intros resp body fin prev self. rewrite stream_pass_connected.
    eexists. reflexivity.
  - intros resp body fin script prev self pass. subst pass.
    cbn [stream_loop resp_after]. unfold bind. cbv zeta.
    rewrite stream_pass_connected. cbv zeta. cbn [out obj evs].
    exists (evs (try_except (try_suite json_loads (PostReturns resp body fin))
                            except_clauses self)).
    destruct (out (try_except (try_suite json_loads (PostReturns resp body fin))
                              except_clauses self));
      cbn [evs]; rewrite <- ?app_assoc; reflexivity.
  - intros script self. unfold stream, bind, log, emit. simpl.
    pose proof (stream_loop_not_transient json_loads script None self) as H.
    unfold raises_transient in *. simpl.
    destruct (out (stream_loop json_loads script None self)); exact H.
Qed.

(** What the [except] clauses and the end of the [try] suite do with
    each way a connection can end. *)
Lemma connection_end_classified (self : TwitterStream) :
  (exists k, except_clauses ConnectTimeout = Some k
     /\ k self = Run (Ret tt) self
                     [Log WARNING "Timeout, retrying in %s.."
                          [ArgNum (_conn_timeout_sleep self)];
                      Sleep (_conn_timeout_sleep self)])
  /\ (exists k, except_clauses ReadTimeout = Some k
        /\ k self
           = after [Log WARNING
                        "Server did not send any data for %ss, backing off"
                        [ArgNum (_stall_timeout self)]]
                   (_backoff "tcp" self))
  /\ (exists k, except_clauses ConnectionError = Some k
        /\ k self = after [Log WARNING "Reconnecting to stream endpoint..." []]
                          (_backoff "tcp" self))
  /\ (exists k, except_clauses SocketError = Some k
        /\ k self = after [Log WARNING "Got socket error: %s, reconnecting!"
                               [ArgExn SocketError]]
                          (_backoff "tcp" self))
  /\ (exists k, except_clauses (HTTPError 420) = Some k
        /\ k self = after [Log WARNING "Got HTTP 420 Error. Backing off.." []]
                          (_backoff "http_420" self))
  /\ (forall code, code <> 420 ->
        exists k, except_clauses (HTTPError code) = Some k
          /\ k self = after [Log WARNING "Got HTTP Error. Backing off.." []]
                            (_backoff "http" self))
  /\ (forall json_loads resp,
        try_suite json_loads (PostReturns resp [] EndOfStream) self
        = after [Authenticate; Post resp; Log WARNING "Backing off.." []]
                (_backoff "tcp" self)).
Proof.
  repeat apply conj.
  - eexists. split; reflexivity.
  - eexists. split; [reflexivity|]. rewrite bind_get. apply bind_log.
  - eexists. split; [reflexivity|]. apply bind_log.
  - eexists. split; [reflexivity|]. apply bind_log.
  - eexists. split; [reflexivity|]. apply bind_log.
  - intros code Hcode. eexists. split; [reflexivity|].
    apply Z.eqb_neq in Hcode. rewrite Hcode. apply bind_log.
  - intros json_loads resp. unfold try_suite.
    rewrite !bind_emit. cbn [iter_lines].
    unfold bind at 1. cbn [ret out obj evs].
    rewrite bind_log. unfold after. simpl. reflexivity.
Qed.

(** A connect timeout in a pass that follows a returned [client.post]:
    the fixed sleep, the stale response closed once more, and the loop
    goes on, the backoff state untouched. *)
Lemma connect_timeout_retried (json_loads : string -> decoded) (prev : nat)
    (self : TwitterStream) :
  stream_pass json_loads (PostRaises ConnectTimeout) (Some prev) self
  = Run (Ret tt) self
        [Authenticate; PostFailed;
         Log WARNING "Timeout, retrying in %s.."
             [ArgNum (_conn_timeout_sleep self)];
         Sleep (_conn_timeout_sleep self); closed_log; Close prev].
Proof. reflexivity. Qed.

(** C3 at a connect timeout of the very first attempt: the fixed sleep
    is taken, then the [finally] suite reads the local [resp], which was
    never assigned, and UnboundLocalError ends [stream]; the second
    attempt of the script is never made.  The same end awaits every
    session whose first [client.post] raises, whatever it raises. *)
Theorem first_connect_timeout_not_retried (json_loads : string -> decoded) :
  (forall (hs : list handler) (window : Z),
      stream json_loads
             [PostRaises ConnectTimeout; PostReturns 0 [] EndOfStream]
             (init hs window)
      = Run (Raise (UnboundLocalError "resp")) (init hs window)
            [Log INFO "Started streaming." []; Authenticate; PostFailed;
             Log WARNING "Timeout, retrying in %s.." [ArgNum (1 # 2)];
             Sleep (1 # 2); closed_log])
  /\ (forall (e : exn) (script : list attempt) (self : TwitterStream),
        out (stream json_loads (PostRaises e :: script) self)
        = Raise (UnboundLocalError "resp")).
Proof.
  split; [reflexivity|].
  intros e script self. unfold stream. rewrite bind_log. cbn [after out].
  cbn [stream_loop]. unfold bind at 1.
  assert (Hpass : out (stream_pass json_loads (PostRaises e) None self)
                  = Raise (UnboundLocalError "resp")).
  { unfold stream_pass, try_finally. cbn [resp_after].
    unfold finally_suite. rewrite bind_log. reflexivity. }
  rewrite Hpass. reflexivity.
Qed.

(** ** The body loop *)

Lemma forwarded_trace (jd : py) (hs : list handler) (i : nat) :
  resets (forwarded jd i hs) = O /\ off_connection (forwarded jd i hs) = true.
Proof.
  revert i. induction hs as [|h hs IH]; intros i; simpl; [split; reflexivity|].
  destruct (IH (S i)) as [Hr Ho]. destruct (h_is_queue h); simpl; auto.
Qed.

(** A line on which [process_one_line] returns: only the counter of the
    object can change, and the events are logs above DEBUG, probes and
    handler calls. *)
Lemma process_one_line_returns (json_loads : string -> decoded)
    (l : line_in) (self : TwitterStream) :
  line_returns json_loads (handlers self) (window_size self) l = true ->
  exists b c evl,
    process_one_line json_loads (text l) (alive l) self
    = Run (Ret b) (set_counter c self) evl
    /\ resets evl = O /\ off_connection evl = true.
Proof.
  assert (Hid : set_counter (_counter self) self = self)
    by (destruct self; reflexivity).
  unfold line_returns.
  destruct (String.eqb_spec (text l) "") as [He|Hne].
  - intros _. exists true, (_counter self), []. rewrite He, Hid.
    repeat split.
  - destruct (json_loads (text l)) as [jd|err] eqn:Hdec.
    + destruct (is_status jd) as [[|]|e] eqn:Hst; [| |discriminate].
      * intros Hok. apply andb_true_iff in Hok. destruct Hok as [Hws Halive].
        apply negb_true_iff, Z.eqb_neq in Hws.
        rewrite (status_line_counted _ _ _ _ Hne jd Hdec Hst Hws). cbv zeta.
        rewrite (forward_alive (alive l) jd (handlers self) 0 _ Halive).
        cbn [out obj evs].
        destruct (forwarded_trace jd (handlers self) 0) as [Hr Ho].
        eexists true, _, _. split; [reflexivity|].
        destruct (Z.eqb ((_counter self + 1) mod window_size self) 0);
          simpl; auto.
      * intros _.
        rewrite (non_status_line_dropped _ _ (alive l) self Hne jd Hdec Hst).
        exists false, (_counter self), [Log ERROR "Not status tweet: %s" [ArgPy jd]].
        rewrite Hid. repeat split.
    + intros _.
      rewrite (undecodable_line_dropped _ _ (alive l) self Hne err Hdec).
      exists false, (_counter self),
        [Log ERROR "Json loads error: %s, raw data: %s"
             [ArgStr err; ArgStr (text l)]].
      rewrite Hid. repeat split.
Qed.



Section BodyLoop.

Variable json_loads : string -> decoded.
Variable hs : list handler.
Variable ws : Z.

(** One turn of the body loop on a line that comes back. *)
Lemma iter_lines_step (l : line_in) (body : list line_in) (data_lines : Z)
    (self self1 : TwitterStream) (b : bool) (evl : list event) :
  process_one_line json_loads (text l) (alive l) self = Run (Ret b) self1 evl ->
  iter_lines json_loads (l :: body) data_lines self
  = after evl
      (if Z.leb 8 (data_lines + 1)
       then after [reset_log]
                  (iter_lines json_loads body 0 (set_backoff None None self1))
       else iter_lines json_loads body (data_lines + 1) self1).
Proof.
  intros Hrun. cbn [iter_lines]. unfold bind at 1. rewrite Hrun.
  cbn [out obj evs]. destruct (Z.leb 8 (data_lines + 1)).
  - rewrite bind_log. unfold bind at 1, _reset_backoff, modify.
    cbn [out obj evs]. unfold after. cbn [out obj evs app]. reflexivity.
  - unfold after. reflexivity.
Qed.


End BodyLoop.




(** ** Dead consumers *)

Lemma probes_alive_app (l1 l2 : list event) :
  probes_alive (l1 ++ l2) <-> probes_alive l1 /\ probes_alive l2.
Proof.
  unfold probes_alive. rewrite existsb_app. apply orb_false_iff.
Qed.

Lemma probes_alive_not_in (l : list event) (i : nat) :
  probes_alive l -> ~ In (IsAlive i false) l.
Proof.
  unfold probes_alive. induction l as [|e l IH]; simpl; [tauto|].
  intros H [Heq|Hin]; apply orb_false_iff in H; destruct H as [He Hl].
  - subst e. discriminate.
  - exact (IH Hl Hin).
Qed.

Lemma probe_safe_quiet {A} (m : M A) :
  (forall self, probes_alive (evs (m self))) -> probe_safe m.
Proof. intros H self. left. apply H. Qed.

Lemma probe_safe_bind {A B} (m : M A) (k : A -> M B) :
  probe_safe m -> (forall a, probe_safe (k a)) -> probe_safe (bind m k).
Proof.
  intros Hm Hk self. unfold bind.
  destruct (Hm self) as [Hq|[Hout Hpre]].
  - destruct (out (m self)) as [a|e]; cbn [out evs]; [|left; exact Hq].
    destruct (Hk a (obj (m self))) as [Hq'|[Hout' (pre & i & Hev & Hpre)]].
    + left. apply probes_alive_app. split; assumption.
    + right. split; [exact Hout'|]. exists (evs (m self) ++ pre)%list, i.
      rewrite Hev, app_assoc. split; [reflexivity|].
      apply probes_alive_app. split; assumption.
  - rewrite Hout. right. split; [reflexivity|exact Hpre].
Qed.

Lemma backoff_probe_safe (strategy : string) : probe_safe (_backoff strategy).
Proof.
  apply probe_safe_quiet. intros self. unfold _backoff, bind, get. simpl.
  destruct (_backoff_params self !! strategy) as [params|]; simpl;
    [|reflexivity].
  destruct (_backoff_sleep self) as [sleep|]; simpl; [|reflexivity].
  destruct (bool_decide (_backoff_strategy self = Some strategy)); simpl;
    [|reflexivity].
  destruct (num_ge sleep (p_max params)); simpl; [reflexivity|].
  destruct (String.eqb (p_kind params) "linear"); simpl.
  - destruct (p_step params); reflexivity.
  - destruct (p_factor params); reflexivity.
Qed.

Lemma after_probe {A} (l : list event) (r : run A) :
  probes_alive l ->
  probes_alive (evs r) \/ stopped_at_probe r ->
  probes_alive (evs (after l r)) \/ stopped_at_probe (after l r).
Proof.
  intros Hl [Hq|[Hout (pre & i & Hev & Hpre)]]; unfold after; cbn [out evs].
  - left. apply probes_alive_app. split; assumption.
  - right. split; [exact Hout|]. exists (l ++ pre)%list, i.
    rewrite Hev, app_assoc. split; [reflexivity|].
    apply probes_alive_app. split; assumption.
Qed.

(** One turn of the loop over the handlers. *)
Lemma forward_cons (alive : nat -> bool) (jd : py) (h : handler)
    (hs : list handler) (i : nat) (self : TwitterStream) :
  forward alive jd i (h :: hs) self
  = if h_is_queue h then
      if alive i
      then after [IsAlive i true; ProcessOne i h jd]
                 (forward alive jd (S i) hs self)
      else Run (Raise consumer_dead) self [IsAlive i false]
    else after [ProcessOne i h jd] (forward alive jd (S i) hs self).
Proof.
  cbn [forward]. unfold bind, emit, ret, raise, after.
  destruct (h_is_queue h); [destruct (alive i)|]; cbn;
    try reflexivity;
    destruct (forward alive jd (S i) hs self) as [[u|e] o l]; reflexivity.
Qed.

Lemma forward_probe_safe (alive : nat -> bool) (jd : py)
    (hs : list handler) (i : nat) :
  probe_safe (forward alive jd i hs).
Proof.
  revert i. induction hs as [|h hs IH]; intros i self.
  - left. reflexivity.
  - rewrite forward_cons. destruct (h_is_queue h); [destruct (alive i)|].
    + apply after_probe; [reflexivity|apply IH].
    + right. split; [reflexivity|]. exists [], i. split; reflexivity.
    + apply after_probe; [reflexivity|apply IH].
Qed.

Section DeadConsumer.

Variable json_loads : string -> decoded.

Lemma process_one_line_probe_safe (line : string) (alive : nat -> bool) :
  probe_safe (process_one_line json_loads line alive).
Proof.
  unfold process_one_line. destruct (String.eqb line "").
  - apply probe_safe_quiet. reflexivity.
  - destruct (json_loads line) as [jd|err].
    + apply probe_safe_bind.
      * apply probe_safe_quiet. intros self. rewrite py_and_is_status.
        reflexivity.
      * intros ok. destruct ok; cbn [negb].
        -- apply probe_safe_bind; [apply probe_safe_quiet; reflexivity|].
           intros _. apply probe_safe_bind;
             [apply probe_safe_quiet; reflexivity|].
           intros self. apply probe_safe_bind.
           ++ apply probe_safe_quiet. intros self'. unfold py_mod.
              destruct (Z.eqb (window_size self) 0); reflexivity.
           ++ intros r. apply probe_safe_bind.
              ** destruct (Z.eqb r 0); apply probe_safe_quiet; reflexivity.
              ** intros _. apply probe_safe_bind;
                   [apply forward_probe_safe|].
                 intros _. apply probe_safe_quiet. reflexivity.
        -- apply probe_safe_quiet. reflexivity.
    + apply probe_safe_quiet. reflexivity.
Qed.

Lemma iter_lines_probe_safe (body : list line_in) (data_lines : Z) :
  probe_safe (iter_lines json_loads body data_lines).
Proof.
  revert data_lines. induction body as [|l body IH]; intros dl;
    cbn [iter_lines].
  - apply probe_safe_quiet. reflexivity.
  - apply probe_safe_bind; [apply process_one_line_probe_safe|].
    intros _. destruct (Z.leb 8 (dl + 1)).
    + apply probe_safe_bind; [apply probe_safe_quiet; reflexivity|].
      intros _. apply probe_safe_bind; [apply probe_safe_quiet; reflexivity|].
      intros _. apply IH.
    + apply IH.
Qed.

Lemma try_suite_probe_safe (a : attempt) : probe_safe (try_suite json_loads a).
Proof.
  unfold try_suite.
  apply probe_safe_bind; [apply probe_safe_quiet; reflexivity|]. intros _.
  destruct a as [e|resp body fin].
  - apply probe_safe_quiet. reflexivity.
  - apply probe_safe_bind; [apply probe_safe_quiet; reflexivity|]. intros _.
    apply probe_safe_bind; [apply iter_lines_probe_safe|]. intros _.
    destruct fin as [|e].
    + apply probe_safe_bind; [apply probe_safe_quiet; reflexivity|].
      intros _. apply backoff_probe_safe.
    + apply probe_safe_quiet. reflexivity.
Qed.

(** When [client.post] raised, no line was read and no probe made. *)
Lemma try_suite_post_raises (e : exn) (self : TwitterStream) :
  try_suite json_loads (PostRaises e) self
  = Run (Raise e) self [Authenticate; PostFailed].
Proof. reflexivity. Qed.

Lemma except_clauses_probe_safe (e : exn) (k : M unit) :
  except_clauses e = Some k -> probe_safe k.
Proof.
  destruct e; simpl; try discriminate; intros [= <-] self;
    rewrite ?bind_get.
  - left. reflexivity.
  - rewrite bind_log. apply after_probe; [reflexivity|apply backoff_probe_safe].
  - rewrite bind_log. apply after_probe; [reflexivity|apply backoff_probe_safe].
  - destruct (Z.eqb status_code 420); rewrite bind_log;
      (apply after_probe; [reflexivity|apply backoff_probe_safe]).
  - rewrite bind_log. apply after_probe; [reflexivity|apply backoff_probe_safe].
Qed.

Lemma try_except_probe_safe (a : attempt) :
  probe_safe (try_except (try_suite json_loads a) except_clauses).
Proof.
  intros self. unfold try_except.
  destruct (try_suite_probe_safe a self) as [Hq|[Hout Hpre]].
  - destruct (out (try_suite json_loads a self)) as [u|e] eqn:Ho;
      [left; exact Hq|].
    destruct (except_clauses e) as [k|] eqn:Hk; [|left; exact Hq].
    destruct (except_clauses_probe_safe e k Hk
                (obj (try_suite json_loads a self)))
      as [Hq'|[Hout' (pre & i & Hev & Hpre)]]; cbn [out evs].
    + left. apply probes_alive_app. split; assumption.
    + right. split; [exact Hout'|].
      exists (evs (try_suite json_loads a self) ++ pre)%list, i.
      rewrite Hev, app_assoc. split; [reflexivity|].
      apply probes_alive_app. split; assumption.
  - rewrite Hout. cbn [except_clauses consumer_dead].
    right. split; [exact Hout|exact Hpre].
Qed.

Lemma stream_pass_probe (a : attempt) (resp : option nat)
    (self : TwitterStream) :
  let r := stream_pass json_loads a resp self in
  probes_alive (evs r) \/ ended_at_probe r.
Proof.
  cbv zeta. unfold stream_pass, try_finally.
  destruct a as [e|r body fin].
  - left. unfold try_except. rewrite try_suite_post_raises. cbn [out obj evs].
    cbn [resp_after].
    assert (Hfin : forall s, probes_alive (evs (finally_suite resp s))).
    { intros s. unfold finally_suite. destruct resp; reflexivity. }
    destruct (except_clauses e) as [k|] eqn:Hk.
    + destruct (except_clauses_probe_safe e k Hk self)
        as [Hq|[Hout (pre & i & Hev & Hpre)]].
      * cbn [out obj evs].
        destruct (out (finally_suite resp (obj (k self))));
          cbn [evs]; rewrite !probes_alive_app;
          (split; [split; [reflexivity|exact Hq]|apply Hfin]).
      * exfalso. destruct e; simpl in Hk; try discriminate;
          injection Hk as <-.
        -- discriminate Hout.
        -- rewrite bind_get, bind_log in Hout. cbn [after out] in Hout.
           destruct (backoff_raises _ _ _ Hout) as [H|[[m H]|[m H]]];
             discriminate H.
        -- rewrite bind_log in Hout. cbn [after out] in Hout.
           destruct (backoff_raises _ _ _ Hout) as [H|[[m H]|[m H]]];
             discriminate H.
        -- destruct (Z.eqb status_code 420);
             rewrite bind_log in Hout; cbn [after out] in Hout;
             destruct (backoff_raises _ _ _ Hout) as [H|[[m H]|[m H]]];
             discriminate H.
        -- rewrite bind_log in Hout. cbn [after out] in Hout.
           destruct (backoff_raises _ _ _ Hout) as [H|[[m H]|[m H]]];
             discriminate H.
    + cbn [out obj evs].
      destruct (out (finally_suite resp self)); cbn [evs];
        rewrite probes_alive_app; (split; [reflexivity|apply Hfin]).
  - cbn [resp_after].
    set (t := try_except (try_suite json_loads (PostReturns r body fin))
                         except_clauses self).
    change (finally_suite (Some r) (obj t))
      with (Run (Ret tt) (obj t) [closed_log; Close r]).
    cbn [out obj evs].
    destruct (try_except_probe_safe (PostReturns r body fin) self)
      as [Hq|[Hout (pre & i & Hev & Hpre)]]; fold t in Hq || fold t in Hout, Hev.
    + left. apply probes_alive_app. split; [exact Hq|reflexivity].
    + right. split; [exact Hout|]. exists pre, i, r.
      rewrite Hev, <- app_assoc. split; [reflexivity|exact Hpre].
Qed.

Lemma stream_loop_probe (script : list attempt) :
  forall (resp : option nat) (self : TwitterStream),
    let r := stream_loop json_loads script resp self in
    probes_alive (evs r) \/ ended_at_probe r.
Proof.
  induction script as [|a script IH]; intros resp self; cbv zeta.
  - left. reflexivity.
  - cbn [stream_loop]. unfold bind.
    destruct (stream_pass_probe a resp self)
      as [Hq|[Hout (pre & i & r & Hev & Hpre)]]; cbv zeta in *.
    + destruct (out (stream_pass json_loads a resp self)) as [u|e];
        cbn [out evs]; [|left; exact Hq].
      destruct (IH (resp_after a resp) (obj (stream_pass json_loads a resp self)))
        as [Hq'|[Hout' (pre & i & r & Hev & Hpre)]]; cbv zeta in *.
      * left. apply probes_alive_app. split; assumption.
      * right. split; [exact Hout'|].
        exists (evs (stream_pass json_loads a resp self) ++ pre)%list, i, r.
        rewrite Hev, app_assoc. split; [reflexivity|].
        apply probes_alive_app. split; assumption.
    + rewrite Hout. right. split; [reflexivity|].
      exists pre, i, r. split; [exact Hev|exact Hpre].
Qed.

End DeadConsumer.

(** C6: if, anywhere in a session, the liveness probe of a handler
    answers not alive when a record is about to be forwarded to it, then
    [stream] ends by raising SystemExit('Consumer thread dead'), and
    after that probe the session does nothing but close the open
    response: no handler call, no further line, no sleep, no new
    [client.post]. *)
Theorem dead_consumer_stops_session (json_loads : string -> decoded)
    (script : list attempt) (self : TwitterStream) (i : nat) :
  let r := stream json_loads script self in
  In (IsAlive i false) (evs r) ->
  out r = Raise consumer_dead
  /\ exists pre resp,
       evs r = (pre ++ [IsAlive i false; closed_log; Close resp])%list
       /\ forall j, ~ In (IsAlive j false) pre.
Proof.
  cbv zeta. unfold stream. rewrite bind_log. cbn [after out obj evs].
  intros Hin.
  assert (Hin' : In (IsAlive i false)
                    (evs (stream_loop json_loads script None self))).
  { destruct Hin as [Hin|Hin]; [discriminate|exact Hin]. }
  clear Hin.
  destruct (stream_loop_probe json_loads script None self)
    as [Hq|[Hout (pre & i' & r & Hev & Hpre)]]; cbv zeta in *.
  - exfalso. exact (probes_alive_not_in _ _ Hq Hin').
  - split; [exact Hout|].
    assert (Hi : i' = i).
    { rewrite Hev in Hin'. apply in_app_or in Hin'.
      destruct Hin' as [Hin|Hin].
      - exfalso. exact (probes_alive_not_in _ _ Hpre Hin).
      - unfold closed_log in Hin.
        destruct Hin as [Heq|[Heq|[Heq|[]]]]; try discriminate.
        injection Heq as ->. reflexivity. }
    subst i'.
    exists (Log INFO "Started streaming." [] :: pre), r.
    rewrite Hev. split; [reflexivity|].
    intros j [Hj|Hj]; [discriminate|].
    exact (probes_alive_not_in _ _ Hpre Hj).
Qed.

(** A record arrives while the second handler, a QueueHandler, is dead:
    the first handler gets the record, the session stops, and the second
    response of the script is never asked for. *)
Lemma dead_consumer_stops_session_witness :
  let script :=
    [PostReturns 0 [keep_alive;
                    {| text := status_line; alive := fun _ => false |};
                    keep_alive] EndOfStream;
     PostReturns 1 [] EndOfStream] in
  let r := stream loads script (init [file_handler; queue_handler] 1000) in
  out r = Raise consumer_dead
  /\ exists pre resp,
       evs r = (pre ++ [IsAlive 1 false; closed_log; Close resp])%list
       /\ forall j, ~ In (IsAlive j false) pre.
Proof.
  intros script r.
  apply (dead_consumer_stops_session loads script
           (init [file_handler; queue_handler] 1000) 1%nat).
  vm_compute. tauto.
Defined.

(** * Further properties *)

(** ** More on the backoff controller *)

Local Ltac shape_raised := left; eexists; repeat split.
Local Ltac shape_returned :=
  right; eexists; split; [reflexivity|];
  split; [unfold set_backoff_sleep, set_backoff; cbn;
          repeat match goal with
                 | H : _backoff_strategy _ = Some _ |- _ => rewrite H
                 end; reflexivity
         |reflexivity].

(** The shape of every run of [_backoff]. *)
Lemma backoff_shape (self : TwitterStream) (strategy : string) :
  let r := _backoff strategy self in
  (exists e, out r = Raise e /\ obj r = self /\ sleeps (evs r) = [])
  \/ (exists d, out r = Ret tt
        /\ obj r = set_backoff (Some d) (Some strategy) self
        /\ sleeps (evs r) = [d]).
Proof.
  unfold _backoff, bind, get. simpl.
  destruct (_backoff_params self !! strategy) as [params|]; simpl;
    [|shape_raised].
  destruct (_backoff_sleep self) as [sleep|]; simpl; [|shape_returned].
  case_bool_decide as Hactive; simpl; [|shape_returned].
  destruct (num_ge sleep (p_max params)); simpl; [shape_raised|].
  destruct (String.eqb (p_kind params) "linear"); simpl.
  - destruct (p_step params); simpl; [shape_returned|shape_raised].
  - destruct (p_factor params); simpl; [shape_returned|shape_raised].
Qed.

(** X1: a call of [_backoff] that returns has slept exactly once, for
    the delay it leaves in [_backoff_sleep], with the called category
    active and nothing else of the object changed; a call that raises
    has not slept and leaves the object as it was. *)
Theorem backoff_sleeps_stored_delay (self : TwitterStream)
    (strategy : string) :
  let r := _backoff strategy self in
  match out r with
  | Ret _ =>
      exists d, sleeps (evs r) = [d]
        /\ _backoff_sleep (obj r) = Some d
        /\ _backoff_strategy (obj r) = Some strategy
        /\ _counter (obj r) = _counter self
        /\ same_configuration self (obj r)
  | Raise _ => sleeps (evs r) = [] /\ obj r = self
  end.
Proof.
  cbv zeta.
  destruct (backoff_shape self strategy)
    as [(e & Hout & Hobj & Hsl)|(d & Hout & Hobj & Hsl)]; cbv zeta in *;
    rewrite Hout.
  - split; assumption.
  - exists d. rewrite Hobj. repeat split. exact Hsl.
Qed.

(** X2: [_backoff] raises TwitterStreamError exactly when the called
    category is known, is the active one, and the delay of the previous
    call has reached its maximum. *)
Theorem backoff_fatal_iff (self : TwitterStream) (strategy : string) :
  out (_backoff strategy self) = Raise TwitterStreamError
  <-> exists params d,
        _backoff_params self !! strategy = Some params
        /\ _backoff_sleep self = Some d
        /\ _backoff_strategy self = Some strategy
        /\ (p_max params <= d)%Q.
Proof.
  split.
  - unfold _backoff, bind, get. simpl.
    destruct (_backoff_params self !! strategy) as [params|]; simpl;
      [|discriminate].
    destruct (_backoff_sleep self) as [sleep|]; simpl; [|discriminate].
    case_bool_decide as Hactive; simpl; [|discriminate].
    destruct (num_ge sleep (p_max params)) eqn:Hge; simpl.
    + intros _. exists params, sleep. repeat split; try assumption.
      apply num_ge_spec. exact Hge.
    + destruct (String.eqb (p_kind params) "linear"); simpl.
      * destruct (p_step params); simpl; discriminate.
      * destruct (p_factor params); simpl; discriminate.
  - intros (params & d & Hp & Hs & Hc & Hge).
    rewrite (backoff_ceiling self strategy params Hp d Hs Hc);
      [reflexivity|]. apply num_ge_spec. exact Hge.
Qed.

(** The missing-key cases of a continuing call below the maximum. *)
Lemma backoff_growth_key_aux (self : TwitterStream) (strategy : string)
    (params : backoff_spec) (d : Q) :
  _backoff_params self !! strategy = Some params ->
  _backoff_sleep self = Some d ->
  _backoff_strategy self = Some strategy ->
  num_ge d (p_max params) = false ->
  (p_kind params = "linear" -> p_step params = None ->
   _backoff strategy self = Run (Raise (KeyError "step")) self [])
  /\ (p_kind params <> "linear" -> p_factor params = None ->
      _backoff strategy self = Run (Raise (KeyError "factor")) self []).
Proof.
  intros Hp Hs Hc Hlt. split.
  - intros Hkind Hstep. unfold _backoff, bind, get. simpl.
    rewrite Hp, Hs. rewrite bool_decide_eq_true_2 by exact Hc.
    rewrite Hlt, Hkind, Hstep. reflexivity.
  - intros Hkind Hfactor. unfold _backoff, bind, get. simpl.
    rewrite Hp, Hs. rewrite bool_decide_eq_true_2 by exact Hc.
    apply String.eqb_neq in Hkind. rewrite Hlt, Hkind, Hfactor. reflexivity.
Qed.

(** X3: below the maximum, a continuing call looks at ['kind']: for
    ['linear'] it needs the key ['step'], for every other kind, whatever
    its spelling, the key ['factor']; when the key is missing, KeyError
    is raised before anything is assigned, logged or slept. *)
Theorem backoff_growth_key (self : TwitterStream) (strategy : string)
    (params : backoff_spec) (d : Q) :
  _backoff_params self !! strategy = Some params ->
  _backoff_sleep self = Some d ->
  _backoff_strategy self = Some strategy ->
  num_ge d (p_max params) = false ->
  (p_kind params = "linear" -> p_step params = None ->
   _backoff strategy self = Run (Raise (KeyError "step")) self [])
  /\ (p_kind params <> "linear" -> p_factor params = None ->
      _backoff strategy self = Run (Raise (KeyError "factor")) self [])
  /\ (p_kind params <> "linear" -> forall factor,
      p_factor params = Some factor ->
      _backoff_sleep (obj (_backoff strategy self))
      = Some (num_mul d factor)).
Proof.
  intros Hp Hs Hc Hlt.
  destruct (backoff_growth_key_aux self strategy params d Hp Hs Hc Hlt)
    as [Hstep Hfactor].
  split; [exact Hstep|]. split; [exact Hfactor|].
  intros Hkind factor Hf.
  rewrite (backoff_exponential self strategy params Hp d Hs Hc factor
             Hlt Hkind Hf). reflexivity.
Qed.

(** A table whose entry is spelled ['Linear'] and has only a step. *)
Lemma backoff_growth_key_witness :
  let entry := {| p_time := 1; p_kind := "Linear"; p_step := Some (1 # 4);
                  p_factor := None; p_max := 16 |} in
  let self := set_backoff (Some 1%Q) (Some "tcp")
                (set_params (<["tcp" := entry]> ∅) (init [] 1000)) in
  _backoff "tcp" self = Run (Raise (KeyError "factor")) self [].
Proof.
  intros entry self.
  refine (proj1 (proj2 (backoff_growth_key self "tcp" entry 1%Q
                          eq_refl eq_refl eq_refl eq_refl)) _ eq_refl).
  discriminate.
Defined.

(** X4: with the table of the module, a session gives up at the 8th
    failure in a row under http, after sleeping 5, 10, ..., 320 s, and at
    the 6th in a row under http_420, after sleeping 60, 120, 240, 480 and
    960 s: the last delay slept is above the maximum of 600. *)
Theorem backoff_default_curves (hs : list handler) (window : Z) :
  (let r := backoff_calls 7 "http" (init hs window) in
   out r = Ret tt
   /\ sleeps (evs r) = [5; 10; 20; 40; 80; 160; 320]%Q)
  /\ (let r := backoff_calls 8 "http" (init hs window) in
      out r = Raise TwitterStreamError
      /\ sleeps (evs r) = [5; 10; 20; 40; 80; 160; 320]%Q)
  /\ (let r := backoff_calls 5 "http_420" (init hs window) in
      out r = Ret tt
      /\ sleeps (evs r) = [60; 120; 240; 480; 960]%Q)
  /\ (let r := backoff_calls 6 "http_420" (init hs window) in
      out r = Raise TwitterStreamError
      /\ sleeps (evs r) = [60; 120; 240; 480; 960]%Q).
Proof. vm_compute. repeat split. Qed.

(** A value is on the grid when it is a whole number of units. *)
Lemma on_grid_spec (k : N) (x : Q) :
  on_grid k x = true
  <-> (k <= 1074)%N
      /\ exists n, 0 <= n <= 2 ^ 53 /\ (x == n # grid_unit k)%Q.
Proof.
  unfold on_grid, Qeq. cbn [Qnum Qden].
  set (B := 2 ^ 53). set (u := Zpos (grid_unit k)).
  destruct x as [a b]. cbn [Qnum Qden].
  assert (Hu : 0 < u) by (unfold u; lia).
  assert (Hb : 0 < Zpos b) by lia.
  rewrite !andb_true_iff, N.leb_le, Z.eqb_eq, !Z.leb_le.
  split.
  - intros [[[Hk Hmod] Ha] Hle]. split; [exact Hk|].
    exists (a * u / Zpos b).
    pose proof (Z_div_mod_eq_full (a * u) (Zpos b)) as Hdiv.
    rewrite Hmod, Z.add_0_r in Hdiv.
    split; [|lia]. split; nia.
  - intros [Hk (n & [Hn0 HnB] & Heq)].
    split; [split; [split; [exact Hk|]|]|].
    + rewrite Heq. apply Z_mod_mult.
    + nia.
    + nia.
Qed.

Lemma on_grid_nonneg (k : N) (x : Q) : on_grid k x = true -> (0 <= x)%Q.
Proof.
  unfold on_grid. rewrite !andb_true_iff, !Z.leb_le.
  intros [[_ Ha] _]. unfold Qle. cbn [Qnum Qden]. lia.
Qed.

(** A sum that stays within the grid is on the grid. *)
Lemma on_grid_add (k : N) (x y m : Q) :
  on_grid k x = true -> on_grid k y = true -> on_grid k m = true ->
  (x + y <= m)%Q ->
  on_grid k (num_add x y) = true.
Proof.
  rewrite !on_grid_spec.
  intros [Hk (n1 & Hn1 & Hx)] [_ (n2 & Hn2 & Hy)] [_ (nm & Hnm & Hm)] Hle.
  split; [exact Hk|]. exists (n1 + n2).
  assert (Hsum : (x + y == n1 + n2 # grid_unit k)%Q).
  { rewrite Hx, Hy. unfold Qeq, Qplus. cbn [Qnum Qden]. nia. }
  split; [|rewrite num_add_spec; exact Hsum].
  rewrite Hsum, Hm in Hle. unfold Qle in Hle. cbn [Qnum Qden] in Hle.
  split; [lia|nia].
Qed.

(** A product with a whole number that stays within the grid is on the
    grid. *)
Lemma on_grid_mul (k : N) (x f m : Q) :
  on_grid k x = true -> on_grid 0 f = true -> on_grid k m = true ->
  (x * f <= m)%Q ->
  on_grid k (num_mul x f) = true.
Proof.
  rewrite !on_grid_spec.
  intros [Hk (n1 & Hn1 & Hx)] [_ (n2 & Hn2 & Hf)] [_ (nm & Hnm & Hm)] Hle.
  split; [exact Hk|]. exists (n1 * n2).
  assert (Hprod : (x * f == n1 * n2 # grid_unit k)%Q).
  { rewrite Hx, Hf. unfold Qeq, Qmult. cbn [Qnum Qden].
    change (grid_unit 0) with 1%positive. nia. }
  split; [|rewrite num_mul_spec; exact Hprod].
  rewrite Hprod, Hm in Hle. unfold Qle in Hle. cbn [Qnum Qden] in Hle.
  split; nia.
Qed.

(** X5: on delays that binary64 holds exactly, a continuing call that
    returns found the previous delay below the maximum, and the delay it
    sleeps is again such a value.  Under linear growth, with the step
    and the maximum plus the step on the grid of the previous delay, it
    is the previous delay plus the step, less than one step above the
    maximum.  Under the other growth, with a whole factor and the
    maximum times the factor on that grid, it is the previous delay
    times the factor, less than the maximum times the factor when the
    factor is positive. *)
Theorem backoff_delay_bound (self : TwitterStream) (strategy : string)
    (params : backoff_spec) (d : Q) (k : N) :
  _backoff_params self !! strategy = Some params ->
  _backoff_sleep self = Some d ->
  _backoff_strategy self = Some strategy ->
  on_grid k d = true ->
  out (_backoff strategy self) = Ret tt ->
  exists d',
    sleeps (evs (_backoff strategy self)) = [d']
    /\ (d < p_max params)%Q
    /\ (p_kind params = "linear" ->
        exists step, p_step params = Some step
          /\ (on_grid k step = true ->
              on_grid k (p_max params + step) = true ->
              on_grid k d' = true
              /\ (d' == d + step)%Q /\ (d' < p_max params + step)%Q))
    /\ (p_kind params <> "linear" ->
        exists factor, p_factor params = Some factor
          /\ (on_grid 0 factor = true ->
              on_grid k (p_max params * factor) = true ->
              on_grid k d' = true
              /\ (d' == d * factor)%Q
              /\ ((0 < factor)%Q -> (d' < p_max params * factor)%Q))).
Proof.
  intros Hp Hs Hc Hgd Hret.
  destruct (num_ge d (p_max params)) eqn:Hge.
  { rewrite (backoff_ceiling self strategy params Hp d Hs Hc Hge) in Hret.
    discriminate. }
  assert (Hlt : (d < p_max params)%Q).
  { apply Qnot_le_lt. intros Hle. apply num_ge_spec in Hle. congruence. }
  destruct (String.eqb_spec (p_kind params) "linear") as [Hkind|Hkind].
  - destruct (p_step params) as [step|] eqn:Hstep.
    + rewrite (backoff_linear self strategy params Hp d Hs Hc step
                 Hge Hkind Hstep).
      exists (num_add d step). split; [reflexivity|]. split; [exact Hlt|].
      split; [|intros Hne; contradiction].
      intros _. exists step. split; [reflexivity|]. intros Hgs Hgm.
      pose proof (num_add_spec d step) as Hadd.
      split; [|split; [exact Hadd|rewrite Hadd; lra]].
      apply (on_grid_add k d step (p_max params + step) Hgd Hgs Hgm). lra.
    + destruct (backoff_growth_key_aux self strategy params d Hp Hs Hc Hge)
        as [Hmiss _].
      rewrite (Hmiss Hkind Hstep) in Hret. discriminate.
  - destruct (p_factor params) as [factor|] eqn:Hfactor.
    + rewrite (backoff_exponential self strategy params Hp d Hs Hc factor
                 Hge Hkind Hfactor).
      exists (num_mul d factor). split; [reflexivity|]. split; [exact Hlt|].
      split; [intros Heq; contradiction|].
      intros _. exists factor. split; [reflexivity|]. intros Hgf Hgm.
      pose proof (num_mul_spec d factor) as Hmul.
      split; [|split; [exact Hmul|]].
      * apply (on_grid_mul k d factor (p_max params * factor) Hgd Hgf Hgm).
        apply Qmult_le_compat_r; [apply Qlt_le_weak; exact Hlt|].
        exact (on_grid_nonneg 0 factor Hgf).
      * intros Hpos. rewrite Hmul.
        apply Qmult_lt_compat_r; assumption.
    + destruct (backoff_growth_key_aux self strategy params d Hp Hs Hc Hge)
        as [_ Hmiss].
      rewrite (Hmiss Hkind Hfactor) in Hret. discriminate.
Qed.

Lemma backoff_delay_bound_witness :
  let self := obj (backoff_calls 3 "tcp" (init [] 1000)) in
  exists d',
    sleeps (evs (_backoff "tcp" self)) = [d']
    /\ on_grid 2 d' = true
    /\ (d' == (1 # 2) + (1 # 4))%Q
    /\ (d' < 16 + (1 # 4))%Q.
Proof.
  intro self.
  destruct (backoff_delay_bound self "tcp" tcp_spec (1 # 2) 2
              eq_refl eq_refl eq_refl eq_refl eq_refl)
    as (d' & Hs & _ & Hlin & _).
  destruct (Hlin eq_refl) as (step & Hstep & Hgrid).
  injection Hstep as <-.
  exists d'. split; [exact Hs|]. exact (Hgrid eq_refl eq_refl).
Defined.

Lemma sleeps_app (l1 l2 : list event) :
  sleeps (l1 ++ l2) = (sleeps l1 ++ sleeps l2)%list.
Proof.
  induction l1 as [|e l1 IH]; [reflexivity|].
  destruct e; simpl; rewrite IH; reflexivity.
Qed.

(** A run of calls after a first call that returned. *)
Lemma backoff_calls_step (n : nat) (strategy : string)
    (self self1 : TwitterStream) (l : list event) :
  _backoff strategy self = Run (Ret tt) self1 l ->
  backoff_calls (S n) strategy self = after l (backoff_calls n strategy self1).
Proof.
  intros Hrun. cbn [backoff_calls]. unfold bind. rewrite Hrun. reflexivity.
Qed.



Section LinearGrowth.

Variable strategy : string.
Variable params : backoff_spec.
Variable step : Q.
Hypothesis Hkind : p_kind params = "linear".
Hypothesis Hstep : p_step params = Some step.



End LinearGrowth.



Section GrowthFromZero.

Variable strategy : string.
Variable params : backoff_spec.
Variable factor : Q.
Hypothesis Hkind : p_kind params <> "linear".
Hypothesis Hfactor : p_factor params = Some factor.
Hypothesis Hmax : (0 < p_max params)%Q.

Lemma zero_delay_stays (n : nat) :
  forall (self : TwitterStream) (d : Q),
    _backoff_params self !! strategy = Some params ->
    _backoff_sleep self = Some d ->
    _backoff_strategy self = Some strategy ->
    (d == 0)%Q ->
    let r := backoff_calls n strategy self in
    out r = Ret tt /\ Forall (fun x => (x == 0)%Q) (sleeps (evs r)).
Proof.
  induction n as [|n IH]; intros self d Hp Hs Hc Hd; cbv zeta.
  - split; [reflexivity|constructor].
  - assert (Hge : num_ge d (p_max params) = false).
    { destruct (num_ge d (p_max params)) eqn:Hge; [|reflexivity].
      apply num_ge_spec in Hge. rewrite Hd in Hge. lra. }
    rewrite (backoff_calls_step _ _ _ _ _
               (backoff_exponential self strategy params Hp d Hs Hc factor
                  Hge Hkind Hfactor)).
    assert (Hd' : (num_mul d factor == 0)%Q).
    { rewrite num_mul_spec, Hd. lra. }
    destruct (IH (set_backoff_sleep (Some (num_mul d factor)) self)
                 (num_mul d factor) Hp eq_refl Hc Hd') as [Hout Hall].
    cbn [after out evs]. split; [exact Hout|].
    rewrite sleeps_app. cbn [sleeps app].
    constructor; [exact Hd'|exact Hall].
Qed.

End GrowthFromZero.

(** X7: under a category whose growth is not linear and whose initial
    time is 0, with a positive maximum, the delay stays 0: however many
    calls follow a reset, every one returns after a sleep of 0 and
    TwitterStreamError is never raised. *)
Theorem growth_from_zero_never_exhausts (n : nat) (self : TwitterStream)
    (strategy : string) (params : backoff_spec) (factor : Q) :
  _backoff_params self !! strategy = Some params ->
  p_kind params <> "linear" ->
  p_factor params = Some factor ->
  (p_time params == 0)%Q ->
  (0 < p_max params)%Q ->
  let r := backoff_calls n strategy (obj (_reset_backoff self)) in
  out r = Ret tt
  /\ length (sleeps (evs r)) = n
  /\ Forall (fun x => (x == 0)%Q) (sleeps (evs r)).
Proof.
  intros Hp Hkind Hfactor Htime Hmax r. subst r.
  assert (Hlen : forall m s,
             out (backoff_calls m strategy s) = Ret tt ->
             length (sleeps (evs (backoff_calls m strategy s))) = m).
  { induction m as [|m IHm]; intros s Hout; [reflexivity|].
    destruct (backoff_shape s strategy)
      as [(e & Ho & Hobj & Hsl)|(d & Ho & Hobj & Hsl)]; cbv zeta in *.
    - cbn [backoff_calls] in Hout. unfold bind in Hout. rewrite Ho in Hout.
      discriminate.
    - cbn [backoff_calls] in Hout |- *. unfold bind in Hout |- *.
      rewrite Ho in Hout |- *. cbn [out evs] in Hout |- *.
      rewrite sleeps_app, length_app, Hsl. cbn [length].
      rewrite (IHm _ Hout). reflexivity. }
  destruct n as [|n].
  - repeat split. constructor.
  - pose proof (backoff_start (obj (_reset_backoff self)) strategy params Hp
                  (or_introl eq_refl)) as Hfirst.
    assert (Hrest := zero_delay_stays strategy params factor Hkind Hfactor
                       Hmax n
                       (set_backoff (Some (p_time params)) (Some strategy)
                                    (obj (_reset_backoff self)))
                       (p_time params) Hp eq_refl eq_refl Htime).
    cbv zeta in Hrest. destruct Hrest as [Hout Hall].
    assert (Hrun : out (backoff_calls (S n) strategy (obj (_reset_backoff self)))
                   = Ret tt).
    { rewrite (backoff_calls_step _ _ _ _ _ Hfirst). exact Hout. }
    split; [exact Hrun|]. split; [exact (Hlen _ _ Hrun)|].
    rewrite (backoff_calls_step _ _ _ _ _ Hfirst). cbn [after evs].
    rewrite sleeps_app. cbn [sleeps app].
    constructor; [exact Htime|exact Hall].
Qed.

Lemma growth_from_zero_never_exhausts_witness :
  let entry := {| p_time := 0; p_kind := "exponential"; p_step := None;
                  p_factor := Some (2 # 1); p_max := 16 |} in
  let self := set_params (<["tcp" := entry]> ∅) (init [] 1000) in
  let r := backoff_calls 100 "tcp" (obj (_reset_backoff self)) in
  out r = Ret tt
  /\ length (sleeps (evs r)) = 100%nat
  /\ Forall (fun x => (x == 0)%Q) (sleeps (evs r)).
Proof.
  intros entry self.
  apply (growth_from_zero_never_exhausts 100 self "tcp" entry (2 # 1));
    solve [reflexivity | discriminate].
Defined.

(** ** More on [process_one_line] *)

Lemma reached_prefix (alive : nat -> bool) (hs : list handler) (i : nat) :
  exists rest, hs = (reached alive i hs ++ rest)%list
    /\ (queues_alive alive i hs = true -> rest = []).
Proof.
  revert i. induction hs as [|h hs IH]; intros i; cbn [reached queues_alive].
  - exists []. split; reflexivity.
  - destruct (h_is_queue h); cbn [andb negb orb].
    + destruct (alive i); cbn [negb andb].
      * destruct (IH (S i)) as (rest & Heq & Hall). exists rest.
        split; [cbn [app]; congruence|exact Hall].
      * exists (h :: hs). split; [reflexivity|discriminate].
    + destruct (IH (S i)) as (rest & Heq & Hall). exists rest.
      split; [cbn [app]; congruence|exact Hall].
Qed.

Lemma process_one_calls_app (l1 l2 : list event) :
  process_one_calls (l1 ++ l2)
  = (process_one_calls l1 ++ process_one_calls l2)%list.
Proof.
  induction l1 as [|e l1 IH]; [reflexivity|].
  destruct e; simpl; rewrite IH; reflexivity.
Qed.

(** The loop over the handlers, whatever the probes answer. *)
Lemma forward_reached (alive : nat -> bool) (jd : py) (hs : list handler)
    (i : nat) (self : TwitterStream) :
  let r := forward alive jd i hs self in
  obj r = self
  /\ process_one_calls (evs r) = registered jd i (reached alive i hs)
  /\ out r = if queues_alive alive i hs then Ret tt else Raise consumer_dead.
Proof.
  revert i. induction hs as [|h hs IH]; intros i; cbv zeta.
  - repeat split.
  - rewrite forward_cons. cbn [reached queues_alive].
    destruct (IH (S i)) as (Hobj & Hcalls & Hout).
    destruct (h_is_queue h); cbn [andb negb orb].
    + destruct (alive i); cbn [negb andb after out obj evs].
      * split; [exact Hobj|]. split; [|exact Hout].
        cbn [app process_one_calls registered]. rewrite Hcalls. reflexivity.
      * repeat split.
    + cbn [after out obj evs]. split; [exact Hobj|]. split; [|exact Hout].
      cbn [app process_one_calls registered]. rewrite Hcalls. reflexivity.
Qed.

(** X8: the loop over the handlers gives the record, once and in
    registration order, to exactly the handlers registered before the
    first QueueHandler that is not alive: to all of them, returning, when
    there is none, and otherwise to a proper prefix, raising SystemExit;
    the object is not changed. *)
Theorem forward_stops_at_first_dead (alive : nat -> bool) (jd : py)
    (hs : list handler) (self : TwitterStream) :
  let r := forward alive jd 0 hs self in
  process_one_calls (evs r) = registered jd 0 (reached alive 0 hs)
  /\ obj r = self
  /\ (exists rest, hs = (reached alive 0 hs ++ rest)%list
        /\ match out r with
           | Ret _ => rest = []
           | Raise e =>
               e = consumer_dead
               /\ exists h rest', rest = h :: rest' /\ h_is_queue h = true
           end).
Proof.
  cbv zeta. destruct (forward_reached alive jd hs 0 self)
    as (Hobj & Hcalls & Hout).
  split; [exact Hcalls|]. split; [exact Hobj|].
  destruct (reached_prefix alive hs 0) as (rest & Heq & Hall).
  exists rest. split; [exact Heq|]. rewrite Hout.
  destruct (queues_alive alive 0 hs) eqn:Hq; [exact (Hall eq_refl)|].
  split; [reflexivity|].
  clear Hobj Hcalls Hout Hall. revert rest Heq Hq. generalize 0%nat.
  induction hs as [|h hs IH]; intros i rest Heq Hq;
    cbn [reached queues_alive] in *; [discriminate|].
  destruct (h_is_queue h) eqn:Hh; cbn [andb negb orb] in *.
  - destruct (alive i); cbn [negb andb] in *.
    + cbn [app] in Heq. injection Heq as Heq. exact (IH _ _ Heq Hq).
    + cbn [app] in Heq. subst rest. exists h, hs. split; [reflexivity|exact Hh].
  - cbn [app] in Heq. injection Heq as Heq. exact (IH _ _ Heq Hq).
Qed.

Section MoreLineFacts.

Variable json_loads : string -> decoded.

(** The object and the handler calls of every run of
    [process_one_line], returning or raising. *)
Lemma process_one_line_effect (line : string) (alive : nat -> bool)
    (self : TwitterStream) :
  let r := process_one_line json_loads line alive self in
  if is_record json_loads line then
    obj r = set_counter (_counter self + 1) self
    /\ (window_size self <> 0 ->
        forall jd, json_loads line = Decoded jd ->
        process_one_calls (evs r)
        = registered jd 0 (reached alive 0 (handlers self))
        /\ out r = if queues_alive alive 0 (handlers self)
                   then Ret true else Raise consumer_dead)
  else obj r = self /\ process_one_calls (evs r) = [].
Proof.
  cbv zeta. unfold is_record.
  destruct (String.eqb_spec line "") as [->|Hne]; cbn [negb andb].
  - split; reflexivity.
  - destruct (json_loads line) as [jd|err] eqn:Hdec.
    + destruct (is_status jd) as [[|]|e] eqn:Hst.
      * destruct (Z.eq_dec (window_size self) 0) as [Hz|Hnz].
        -- rewrite (status_line_zero_window _ _ alive self Hne jd Hdec Hst Hz).
           split; [reflexivity|]. intros Hws. contradiction.
        -- rewrite (status_line_counted _ _ alive self Hne jd Hdec Hst Hnz).
           cbv zeta. cbn [out obj evs].
           destruct (forward_reached alive jd (handlers self) 0
                       (set_counter (_counter self + 1) self))
             as (Hobj & Hcalls & Hout).
           split; [exact Hobj|]. intros _ jd' [= <-].
           split.
           ++ rewrite process_one_calls_app, Hcalls.
              destruct (Z.eqb ((_counter self + 1) mod window_size self) 0);
                reflexivity.
           ++ rewrite Hout.
              destruct (queues_alive alive 0 (handlers self)); reflexivity.
      * rewrite (non_status_line_dropped _ _ alive self Hne jd Hdec Hst).
        split; reflexivity.
      * rewrite (scalar_line_raises _ _ alive self Hne jd e Hdec Hst).
        split; reflexivity.
    + rewrite (undecodable_line_dropped _ _ alive self Hne err Hdec).
      split; reflexivity.
Qed.

End MoreLineFacts.

(** X9: whatever the line and however the call ends, returning or
    raising, [process_one_line] changes nothing of the object but the
    counter, and the counter goes up by 1 exactly when the line is not
    empty, decodes and passes the test of the three names, also when
    forwarding then stops at a dead consumer; a line that is not counted
    reaches no handler. *)
Theorem process_one_line_counts_records (json_loads : string -> decoded)
    (line : string) (alive : nat -> bool) (self : TwitterStream) :
  let r := process_one_line json_loads line alive self in
  obj r = (if is_record json_loads line
           then set_counter (_counter self + 1) self else self)
  /\ (if is_record json_loads line then True
      else process_one_calls (evs r) = []).
Proof.
  cbv zeta.
  pose proof (process_one_line_effect json_loads line alive self) as H.
  cbv zeta in H. destruct (is_record json_loads line).
  - split; [exact (proj1 H)|exact I].
  - exact H.
Qed.

Lemma contains_raises (k : string) (jd : py) :
  contains k jd
  = (if is_scalar jd
     then Raise (TypeError ("argument of type '" +:+ type_name jd
                            +:+ "' is not iterable"))
     else contains k jd)
  /\ (is_scalar jd = false -> exists b, contains k jd = Ret b).
Proof.
  destruct jd; cbn [is_scalar contains]; split; try reflexivity;
    try discriminate; intros _; eexists; reflexivity.
Qed.

Lemma is_status_scalar (jd : py) :
  if is_scalar jd
  then is_status jd
       = Raise (TypeError ("argument of type '" +:+ type_name jd
                           +:+ "' is not iterable"))
  else exists b, is_status jd = Ret b.
Proof.
  unfold is_status. destruct (is_scalar jd) eqn:Hs.
  - destruct jd; try discriminate Hs; reflexivity.
  - destruct (proj2 (contains_raises "in_reply_to_status_id" jd) Hs)
      as [b1 H1].
    destruct (proj2 (contains_raises "user" jd) Hs) as [b2 H2].
    destruct (proj2 (contains_raises "id" jd) Hs) as [b3 H3].
    rewrite H1. destruct b1; [|eauto].
    rewrite H2. destruct b2; [|eauto]. rewrite H3. eauto.
Qed.

(** X10: on a line that is not empty and decodes, [process_one_line]
    raises TypeError exactly when the decoded value is None, a bool, an
    int or a float; it then raises before anything is counted, logged or
    forwarded. *)
Theorem scalar_values_raise_type_error (json_loads : string -> decoded)
    (line : string) (alive : nat -> bool) (self : TwitterStream) (jd : py) :
  line <> "" ->
  json_loads line = Decoded jd ->
  let r := process_one_line json_loads line alive self in
  ((exists msg, out r = Raise (TypeError msg)) <-> is_scalar jd = true)
  /\ (is_scalar jd = true -> obj r = self /\ evs r = []).
Proof.
  intros Hne Hdec r. subst r.
  pose proof (is_status_scalar jd) as Hsc.
  destruct (is_scalar jd) eqn:Hs.
  - rewrite (scalar_line_raises _ _ alive self Hne jd _ Hdec Hsc).
    split; [|intros _; split; reflexivity].
    split; [reflexivity|]. intros _. eexists. reflexivity.
  - split; [|discriminate]. split; [|discriminate].
    intros [msg Hout]. exfalso. destruct Hsc as [b Hst]. destruct b.
    + destruct (Z.eq_dec (window_size self) 0) as [Hz|Hnz].
      * rewrite (status_line_zero_window _ _ alive self Hne jd Hdec Hst Hz)
          in Hout. discriminate.
      * rewrite (status_line_counted _ _ alive self Hne jd Hdec Hst Hnz)
          in Hout. cbv zeta in Hout. cbn [out] in Hout.
        destruct (forward_reached alive jd (handlers self) 0
                    (set_counter (_counter self + 1) self))
          as (_ & _ & Hfw).
        cbv zeta in Hfw. rewrite Hfw in Hout.
        destruct (queues_alive alive 0 (handlers self)); discriminate.
    + rewrite (non_status_line_dropped _ _ alive self Hne jd Hdec Hst)
        in Hout. discriminate.
Qed.

Lemma scalar_values_raise_type_error_witness :
  let r := process_one_line loads "null" (fun _ => true)
             (init [file_handler] 1000) in
  ((exists msg, out r = Raise (TypeError msg)) <-> is_scalar PyNone = true)
  /\ (is_scalar PyNone = true
      -> obj r = init [file_handler] 1000 /\ evs r = []).
Proof.
  apply (scalar_values_raise_type_error loads "null" (fun _ => true)
           (init [file_handler] 1000) PyNone);
    [discriminate|reflexivity].
Defined.

Lemma existsb_str_in (k : string) (xs : list py) :
  In (PyStr k) xs ->
  existsb (fun x => match x with
                    | PyStr s => String.eqb s k
                    | _ => false
                    end) xs = true.
Proof.
  intros Hin. apply existsb_exists. exists (PyStr k).
  split; [exact Hin|apply String.eqb_refl].
Qed.

(** X11: the test of the three names does not ask for a mapping: a line
    that decodes to a list with the three names among its elements is
    counted as a record and the list is given to every handler. *)
Theorem list_value_forwarded (json_loads : string -> decoded)
    (line : string) (alive : nat -> bool) (self : TwitterStream)
    (xs : list py) :
  line <> "" ->
  json_loads line = Decoded (PyList xs) ->
  In (PyStr "in_reply_to_status_id") xs ->
  In (PyStr "user") xs ->
  In (PyStr "id") xs ->
  window_size self <> 0 ->
  queues_alive alive 0 (handlers self) = true ->
  let r := process_one_line json_loads line alive self in
  out r = Ret true
  /\ obj r = set_counter (_counter self + 1) self
  /\ process_one_calls (evs r) = registered (PyList xs) 0 (handlers self).
Proof.
  intros Hne Hdec H1 H2 H3 Hws Halive r. subst r.
  assert (Hst : is_status (PyList xs) = Ret true).
  { unfold is_status, contains.
    rewrite (existsb_str_in _ _ H1), (existsb_str_in _ _ H2),
      (existsb_str_in _ _ H3). reflexivity. }
  rewrite (status_line_counted _ _ alive self Hne _ Hdec Hst Hws).
  cbv zeta. rewrite (forward_alive alive _ (handlers self) 0 _ Halive).
  cbn [out obj evs]. repeat split.
  rewrite process_one_calls_app, forwarded_calls.
  destruct (Z.eqb ((_counter self + 1) mod window_size self) 0); reflexivity.
Qed.

Lemma list_value_forwarded_witness :
  let line := "[" +:+ quote +:+ "id" +:+ quote +:+ ", "
                  +:+ quote +:+ "user" +:+ quote +:+ ", 7, "
                  +:+ quote +:+ "in_reply_to_status_id" +:+ quote +:+ "]" in
  let xs := [PyStr "id"; PyStr "user"; PyInt 7;
             PyStr "in_reply_to_status_id"] in
  let self := init [file_handler] 1000 in
  let r := process_one_line loads line (fun _ => true) self in
  out r = Ret true
  /\ obj r = set_counter (_counter self + 1) self
  /\ process_one_calls (evs r) = registered (PyList xs) 0 (handlers self).
Proof.
  intros line xs self.
  apply (list_value_forwarded loads line (fun _ => true) self xs);
    try reflexivity; try discriminate; simpl; tauto.
Defined.

(** ** More on the body loop *)

Section Delivery.

Variable json_loads : string -> decoded.

Lemma is_record_decoded (line : string) :
  is_record json_loads line = true ->
  line <> ""
  /\ exists jd, json_loads line = Decoded jd /\ is_status jd = Ret true.
Proof.
  unfold is_record. destruct (String.eqb_spec line "") as [He|Hne];
    cbn [negb andb]; [discriminate|].
  destruct (json_loads line) as [jd|err]; [|discriminate].
  destruct (is_status jd) as [[|]|e] eqn:Hst; try discriminate.
  intros _. split; [exact Hne|]. exists jd. split; [reflexivity|exact Hst].
Qed.

(** What a line that comes back leaves behind. *)
Lemma returning_line_effect (l : line_in) (self : TwitterStream) :
  line_returns json_loads (handlers self) (window_size self) l = true ->
  let r := process_one_line json_loads (text l) (alive l) self in
  (exists b, out r = Ret b)
  /\ handlers (obj r) = handlers self
  /\ window_size (obj r) = window_size self
  /\ _counter (obj r)
     = _counter self + (if is_record json_loads (text l) then 1 else 0)
  /\ process_one_calls (evs r)
     = match json_loads (text l) with
       | Decoded jd =>
           if is_record json_loads (text l)
           then registered jd 0 (handlers self) else []
       | JSONDecodeError _ => []
       end.
Proof.
  intros Hret. cbv zeta.
  destruct (process_one_line_returns json_loads l self Hret)
    as (b & c & evl & Hrun & _ & _).
  pose proof (process_one_line_effect json_loads (text l) (alive l) self)
    as Heff. cbv zeta in Heff.
  split; [exists b; rewrite Hrun; reflexivity|].
  destruct (is_record json_loads (text l)) eqn:Hrec.
  - destruct Heff as [Hobj Hcalls].
    destruct (is_record_decoded _ Hrec) as (Hne & jd & Hdec & Hst).
    rewrite Hobj. split; [reflexivity|]. split; [reflexivity|].
    split; [reflexivity|]. rewrite Hdec.
    unfold line_returns in Hret.
    apply String.eqb_neq in Hne. rewrite Hne, Hdec, Hst in Hret.
    apply andb_true_iff in Hret. destruct Hret as [Hws Halive].
    apply negb_true_iff, Z.eqb_neq in Hws.
    destruct (Hcalls Hws jd Hdec) as [Hc _]. rewrite Hc.
    destruct (reached_prefix (alive l) (handlers self) 0)
      as (rest & Heq & Hall).
    rewrite (Hall Halive), app_nil_r in Heq. rewrite <- Heq. reflexivity.
  - destruct Heff as [Hobj Hcalls]. rewrite Hobj, Hcalls, Z.add_0_r.
    repeat split. destruct (json_loads (text l)); reflexivity.
Qed.

Variable hs : list handler.
Variable ws : Z.

Lemma iter_lines_delivers (body : list line_in) :
  forall (data_lines : Z) (self : TwitterStream),
    handlers self = hs -> window_size self = ws ->
    forallb (line_returns json_loads hs ws) body = true ->
    let r := iter_lines json_loads body data_lines self in
    process_one_calls (evs r)
    = flat_map (fun jd => registered jd 0 hs) (records json_loads body)
    /\ _counter (obj r)
       = _counter self + Z.of_nat (length (records json_loads body)).
Proof.
  induction body as [|l body IH]; intros dl self Hhs Hws Hok; cbv zeta.
  - cbn. split; [reflexivity|lia].
  - cbn [forallb] in Hok. apply andb_true_iff in Hok. destruct Hok as [Hl Hok].
    rewrite <- Hhs, <- Hws in Hl.
    destruct (returning_line_effect l self Hl)
      as ([b Hout] & Hh1 & Hw1 & Hc1 & Hcalls1).
    destruct (process_one_line json_loads (text l) (alive l) self)
      as [o s1 evl] eqn:Hrun.
    cbn [out obj evs] in *. subst o.
    rewrite (iter_lines_step json_loads l body dl self s1 b evl Hrun).
    assert (Hrec : flat_map (fun jd => registered jd 0 hs)
                     (records json_loads (l :: body))
                   = (process_one_calls evl
                        ++ flat_map (fun jd => registered jd 0 hs)
                             (records json_loads body))%list
                   /\ Z.of_nat (length (records json_loads (l :: body)))
                      = (if is_record json_loads (text l) then 1 else 0)
                        + Z.of_nat (length (records json_loads body))).
    { cbn [records]. rewrite Hcalls1, Hhs.
      destruct (json_loads (text l)) as [jd|err] eqn:Hd.
      - destruct (is_record json_loads (text l)).
        + cbn [flat_map length]. split; [reflexivity|lia].
        + split; [reflexivity|lia].
      - assert (Hno : is_record json_loads (text l) = false).
        { unfold is_record. rewrite Hd. apply andb_false_r. }
        rewrite Hno. split; [reflexivity|lia]. }
    destruct Hrec as [Hflat Hlen]. rewrite Hflat, Hlen.
    destruct (Z.leb 8 (dl + 1)); unfold after; cbn [out obj evs].
    + destruct (IH 0 (set_backoff None None s1)) as [Hc Hn];
        [cbn; congruence|cbn; congruence|exact Hok|].
      cbv zeta in Hc, Hn. rewrite !process_one_calls_app, Hc, Hn.
      cbn [process_one_calls reset_log app set_backoff _counter].
      split; [reflexivity|lia].
    + destruct (IH (dl + 1) s1) as [Hc Hn];
        [congruence|congruence|exact Hok|].
      cbv zeta in Hc, Hn. rewrite process_one_calls_app, Hc, Hn.
      split; [reflexivity|lia].
Qed.

End Delivery.

(** X12: over the body of one connection whose lines all come back,
    the handler calls are exactly one call per handler for each record,
    record after record in the order of the lines and, within a record,
    in registration order; and the counter has gone up by the number of
    records. *)
Theorem connection_delivers_in_order (json_loads : string -> decoded)
    (body : list line_in) (self : TwitterStream) :
  forallb (line_returns json_loads (handlers self) (window_size self)) body
  = true ->
  let r := iter_lines json_loads body 0 self in
  process_one_calls (evs r)
  = flat_map (fun jd => registered jd 0 (handlers self))
             (records json_loads body)
  /\ _counter (obj r)
     = _counter self + Z.of_nat (length (records json_loads body)).
Proof.
  intros Hok.
  exact (iter_lines_delivers json_loads (handlers self) (window_size self)
           body 0 self eq_refl eq_refl Hok).
Qed.

Lemma connection_delivers_in_order_witness :
  let short := "{" +:+ quote +:+ "id" +:+ quote +:+ ":1}" in
  let body := [{| text := status_line; alive := fun _ => true |};
               keep_alive;
               {| text := short; alive := fun _ => true |};
               {| text := status_line; alive := fun _ => true |}] in
  let self := init [file_handler; queue_handler] 1000 in
  let r := iter_lines loads body 0 self in
  process_one_calls (evs r)
  = [(0%nat, file_handler, status_record);
     (1%nat, queue_handler, status_record);
     (0%nat, file_handler, status_record);
     (1%nat, queue_handler, status_record)]
  /\ _counter (obj r) = 2.
Proof.
  intros short body self.
  exact (connection_delivers_in_order loads body self eq_refl).
Defined.

(** ** More on the session loop *)

(** X13: once a response has been bound, connect timeouts are retried
    without end and without touching the object: [n] of them in a row
    sleep [n] times the fixed delay, never raise, leave the backoff state
    as it was, and each pass closes the response of the last returned
    [client.post] once more. *)
Theorem connect_timeouts_retried_for_ever (json_loads : string -> decoded)
    (n : nat) (prev : nat) (self : TwitterStream) :
  stream_loop json_loads (repeat (PostRaises ConnectTimeout) n)
              (Some prev) self
  = Run (Ret tt) self
        (concat (repeat [Authenticate; PostFailed;
                         Log WARNING "Timeout, retrying in %s.."
                             [ArgNum (_conn_timeout_sleep self)];
                         Sleep (_conn_timeout_sleep self);
                         closed_log; Close prev] n)).
Proof.
  induction n as [|n IH]; [reflexivity|].
  cbn [repeat stream_loop resp_after concat]. unfold bind.
  rewrite connect_timeout_retried. cbn [out obj evs]. rewrite IH. reflexivity.
Qed.

(** *** What a session keeps and how it can end *)

Lemma keeps_bind {A B} (I : TwitterStream -> Prop) (X : exn -> Prop)
    (m : M A) (k : A -> M B) :
  keeps I X m -> (forall a, keeps I X (k a)) -> keeps I X (bind m k).
Proof.
  intros Hm Hk self HI. unfold bind.
  destruct (Hm self HI) as [HI1 HX1].
  destruct (out (m self)) as [a|e] eqn:Hout; cbn [out obj].
  - destruct (Hk a (obj (m self)) HI1) as [HI2 HX2]. split; assumption.
  - split; [exact HI1|]. intros e' [= <-]. apply HX1. reflexivity.
Qed.

Lemma keeps_pure {A} (I : TwitterStream -> Prop) (X : exn -> Prop)
    (m : M A) :
  (forall self, obj (m self) = self /\ exists a, out (m self) = Ret a) ->
  keeps I X m.
Proof.
  intros H self HI. destruct (H self) as [Hobj [a Hout]].
  rewrite Hobj, Hout. split; [exact HI|discriminate].
Qed.

Lemma keeps_weaken {A} (I : TwitterStream -> Prop) (X Y : exn -> Prop)
    (m : M A) :
  (forall e, X e -> Y e) -> keeps I X m -> keeps I Y m.
Proof.
  intros HXY Hm self HI. destruct (Hm self HI) as [HI1 HX1].
  split; [exact HI1|]. intros e He. apply HXY, HX1, He.
Qed.

(** Why [_backoff] raises what it raises. *)
Lemma backoff_raise_cases (self : TwitterStream) (strategy : string)
    (e : exn) :
  out (_backoff strategy self) = Raise e ->
  e = TwitterStreamError
  \/ _backoff_params self !! strategy = None
  \/ exists params, _backoff_params self !! strategy = Some params
       /\ ((p_kind params = "linear" /\ p_step params = None)
           \/ (p_kind params <> "linear" /\ p_factor params = None)).
Proof.
  unfold _backoff, bind, get. simpl.
  destruct (_backoff_params self !! strategy) as [params|]; simpl;
    [|intros _; right; left; reflexivity].
  destruct (_backoff_sleep self) as [sleep|]; simpl; [|discriminate].
  destruct (bool_decide (_backoff_strategy self = Some strategy)); simpl;
    [|discriminate].
  destruct (num_ge sleep (p_max params)); simpl;
    [intros [= <-]; left; reflexivity|].
  destruct (String.eqb_spec (p_kind params) "linear") as [Hk|Hk]; simpl.
  - destruct (p_step params) eqn:Hs; simpl; [discriminate|].
    intros _. right. right. exists params.
    split; [reflexivity|left; split; [exact Hk|exact Hs]].
  - destruct (p_factor params) eqn:Hf; simpl; [discriminate|].
    intros _. right. right. exists params.
    split; [reflexivity|right; split; [exact Hk|exact Hf]].
Qed.

Section SessionInvariant.

Variable json_loads : string -> decoded.
Variable I : TwitterStream -> Prop.
Variable X : exn -> Prop.

Hypothesis I_counter : forall s, I s -> I (set_counter (_counter s + 1) s).
Hypothesis I_backoff : forall s d k, I s -> I (set_backoff (Some d) (Some k) s).
Hypothesis I_reset : forall s, I s -> I (set_backoff None None s).
Hypothesis X_backoff :
  forall s k e, I s -> In k categories -> out (_backoff k s) = Raise e -> X e.
Hypothesis X_line :
  forall s line alive e,
    I s -> out (process_one_line json_loads line alive s) = Raise e -> X e.
Hypothesis X_unbound : X (UnboundLocalError "resp").

Lemma backoff_keeps (k : string) : In k categories -> keeps I X (_backoff k).
Proof.
  intros Hk self HI. split; [|intros e He; exact (X_backoff self k e HI Hk He)].
  destruct (backoff_shape self k)
    as [(e & _ & Hobj & _)|(d & _ & Hobj & _)]; cbv zeta in Hobj;
    rewrite Hobj; [exact HI|apply I_backoff; exact HI].
Qed.

Lemma process_one_line_keeps (line : string) (alive : nat -> bool) :
  keeps I X (process_one_line json_loads line alive).
Proof.
  intros self HI. split; [|intros e He; exact (X_line self line alive e HI He)].
  pose proof (process_one_line_effect json_loads line alive self) as H.
  cbv zeta in H. destruct (is_record json_loads line).
  - rewrite (proj1 H). apply I_counter. exact HI.
  - rewrite (proj1 H). exact HI.
Qed.

Lemma iter_lines_keeps (body : list line_in) (data_lines : Z) :
  keeps I X (iter_lines json_loads body data_lines).
Proof.
  revert data_lines. induction body as [|l body IH]; intros dl;
    cbn [iter_lines].
  - apply keeps_pure. intros self. split; [reflexivity|eexists; reflexivity].
  - apply keeps_bind; [apply process_one_line_keeps|]. intros _.
    destruct (Z.leb 8 (dl + 1)); [|apply IH].
    apply keeps_bind.
    { apply keeps_pure. intros self. split; [reflexivity|eexists; reflexivity]. }
    intros _. apply keeps_bind; [|intros _; apply IH].
    intros self HI. split; [apply I_reset; exact HI|discriminate].
Qed.

Lemma except_clauses_keep (e : exn) (k : M unit) :
  except_clauses e = Some k -> keeps I X k.
Proof.
  assert (Hlog : forall lv fmt args, keeps I X (log lv fmt args)).
  { intros lv fmt args. apply keeps_pure. intros self.
    split; [reflexivity|eexists; reflexivity]. }
  assert (Hget : keeps I X get).
  { apply keeps_pure. intros self. split; [reflexivity|eexists; reflexivity]. }
  destruct e; simpl; try discriminate; intros [= <-].
  - apply keeps_bind; [exact Hget|]. intros s.
    apply keeps_bind; [apply Hlog|]. intros _.
    apply keeps_pure. intros self. split; [reflexivity|eexists; reflexivity].
  - apply keeps_bind; [exact Hget|]. intros s.
    apply keeps_bind; [apply Hlog|]. intros _.
    apply backoff_keeps. unfold categories. simpl. tauto.
  - apply keeps_bind; [apply Hlog|]. intros _.
    apply backoff_keeps. unfold categories. simpl. tauto.
  - destruct (Z.eqb status_code 420);
      (apply keeps_bind; [apply Hlog|]); intros _;
      apply backoff_keeps; unfold categories; simpl; tauto.
  - apply keeps_bind; [apply Hlog|]. intros _.
    apply backoff_keeps. unfold categories. simpl. tauto.
Qed.

Lemma try_suite_keeps (a : attempt) :
  keeps I (fun e => X e \/ network_fault a = Some e) (try_suite json_loads a).
Proof.
  assert (Hpure : forall ev, keeps I (fun e => X e \/ network_fault a = Some e)
                               (emit ev)).
  { intros ev. apply keeps_pure. intros self.
    split; [reflexivity|eexists; reflexivity]. }
  unfold try_suite. apply keeps_bind; [apply Hpure|]. intros _.
  destruct a as [e|resp body fin].
  - apply keeps_bind; [apply Hpure|]. intros _ self HI.
    split; [exact HI|]. intros e' [= <-]. right. reflexivity.
  - apply keeps_bind; [apply Hpure|]. intros _.
    apply keeps_bind.
    { apply (keeps_weaken I X); [tauto|apply iter_lines_keeps]. }
    intros _. destruct fin as [|e].
    + apply keeps_bind; [apply Hpure|]. intros _.
      apply (keeps_weaken I X); [tauto|].
      apply backoff_keeps. unfold categories. simpl. tauto.
    + intros self HI. split; [exact HI|]. intros e' [= <-]. right. reflexivity.
Qed.

Lemma stream_pass_keeps (a : attempt) (resp : option nat) :
  keeps I (fun e => X e \/ (network_fault a = Some e
                            /\ except_clauses e = None))
        (stream_pass json_loads a resp).
Proof.
  intros self HI. unfold stream_pass, try_finally.
  assert (Hte : I (obj (try_except (try_suite json_loads a)
                                   except_clauses self))
                /\ forall e,
                     out (try_except (try_suite json_loads a)
                                     except_clauses self) = Raise e ->
                     X e \/ (network_fault a = Some e
                             /\ except_clauses e = None)).
  { unfold try_except. destruct (try_suite_keeps a self HI) as [HI1 HX1].
    destruct (out (try_suite json_loads a self)) as [u|e] eqn:Hout.
    - split; [exact HI1|]. rewrite Hout. discriminate.
    - destruct (except_clauses e) as [k|] eqn:Hk.
      + destruct (except_clauses_keep e k Hk _ HI1) as [HI2 HX2].
        cbn [out obj]. split; [exact HI2|]. intros e' He'. left.
        exact (HX2 e' He').
      + split; [exact HI1|]. rewrite Hout. intros e' [= <-].
        destruct (HX1 e eq_refl) as [Hx|Hn]; [left; exact Hx|].
        right. split; assumption. }
  destruct Hte as [HI1 HX1].
  set (t := try_except (try_suite json_loads a) except_clauses self) in *.
  unfold finally_suite. rewrite bind_log. cbn [after out obj evs].
  destruct (resp_after a resp); cbn [emit raise out obj evs].
  - split; [exact HI1|exact HX1].
  - split; [exact HI1|]. intros e [= <-]. left. exact X_unbound.
Qed.

Lemma stream_loop_keeps (script : list attempt) :
  forall resp,
    keeps I (fun e => X e \/ exists a, In a script
                                 /\ network_fault a = Some e
                                 /\ except_clauses e = None)
          (stream_loop json_loads script resp).
Proof.
  induction script as [|a script IH]; intros resp; cbn [stream_loop].
  - apply keeps_pure. intros self. split; [reflexivity|eexists; reflexivity].
  - apply keeps_bind.
    + apply (keeps_weaken I (fun e => X e \/ (network_fault a = Some e
                                            /\ except_clauses e = None))).
      * intros e [Hx|[Hn Hc]]; [left; exact Hx|].
        right. exists a. split; [left; reflexivity|split; assumption].
      * apply stream_pass_keeps.
    + intros _.
      apply (keeps_weaken I (fun e => X e \/ exists a', In a' script
                                       /\ network_fault a' = Some e
                                       /\ except_clauses e = None)).
      * intros e [Hx|(a' & Hin & Hn & Hc)]; [left; exact Hx|].
        right. exists a'. split; [right; exact Hin|split; assumption].
      * apply IH.
Qed.

Lemma stream_keeps (script : list attempt) :
  keeps I (fun e => X e \/ exists a, In a script
                               /\ network_fault a = Some e
                               /\ except_clauses e = None)
        (stream json_loads script).
Proof.
  unfold stream. apply keeps_bind; [|intros _; apply stream_loop_keeps].
  apply keeps_pure. intros self. split; [reflexivity|eexists; reflexivity].
Qed.

End SessionInvariant.

(** X14: whatever the network does and however the session ends,
    [stream] leaves the handlers, the window size, the two timeouts and
    the backoff table as they were, never lowers the counter, and keeps
    the delay None exactly when the active category is None. *)
Theorem stream_keeps_configuration (json_loads : string -> decoded)
    (script : list attempt) (self : TwitterStream) :
  backoff_inv self ->
  let r := stream json_loads script self in
  same_configuration self (obj r)
  /\ _counter self <= _counter (obj r)
  /\ backoff_inv (obj r).
Proof.
  intros Hinv. cbv zeta.
  apply (stream_keeps json_loads
           (fun s => same_configuration self s
                     /\ _counter self <= _counter s /\ backoff_inv s)
           (fun _ => True)).
  - intros s (Hc & Hn & Hb). split; [exact Hc|]. split; [cbn; lia|exact Hb].
  - intros s d k (Hc & Hn & Hb). split; [exact Hc|]. split; [exact Hn|].
    unfold backoff_inv. cbn. split; discriminate.
  - intros s (Hc & Hn & Hb). split; [exact Hc|]. split; [exact Hn|].
    unfold backoff_inv. cbn. tauto.
  - intros; exact I.
  - intros; exact I.
  - exact I.
  - split; [repeat split|]. split; [lia|exact Hinv].
Qed.

Lemma stream_keeps_configuration_witness :
  let script := [PostReturns 0 [{| text := status_line;
                                   alive := fun _ => true |}]
                             (Broken (HTTPError 420));
                 PostRaises ReadTimeout] in
  let self := init [file_handler] 1000 in
  let r := stream loads script self in
  same_configuration self (obj r)
  /\ _counter self <= _counter (obj r)
  /\ backoff_inv (obj r).
Proof.
  intros script self.
  apply (stream_keeps_configuration loads script self).
  unfold backoff_inv. simpl. tauto.
Defined.

(** What the table of the module holds for the categories of [stream]:
    an initial time, and the growth parameter its kind asks for, none of
    them negative. *)
Lemma default_table_complete (k : string) :
  In k categories ->
  exists params, BACKOFF_PARAMS !! k = Some params
    /\ (0 <= p_time params)%Q
    /\ (p_kind params = "linear" ->
        exists step, p_step params = Some step /\ (0 <= step)%Q)
    /\ (p_kind params <> "linear" ->
        exists factor, p_factor params = Some factor /\ (0 <= factor)%Q).
Proof.
  intros [<-|[<-|[<-|[]]]]; eexists; (split; [reflexivity|]);
    (split; [discriminate|]); split; intros H; cbn in *;
    try congruence; eexists; (split; [reflexivity|discriminate]).
Qed.

(** X15: the table of the module provides for the three categories
    [stream] calls [_backoff] with.  On an object that holds that table
    and whose stored delay, if any, is not negative, such a call either
    raises TwitterStreamError or returns after one sleep, for the delay
    it stores, which is not negative either; it never raises ValueError
    or KeyError. *)
Theorem default_table_provides (self : TwitterStream) (k : string) :
  _backoff_params self = BACKOFF_PARAMS ->
  In k categories ->
  (forall d0, _backoff_sleep self = Some d0 -> (0 <= d0)%Q) ->
  let r := _backoff k self in
  out r = Raise TwitterStreamError
  \/ (out r = Ret tt
      /\ exists d, sleeps (evs r) = [d]
           /\ _backoff_sleep (obj r) = Some d
           /\ (0 <= d)%Q).
Proof.
  intros Htable Hk Hd0. cbv zeta.
  destruct (default_table_complete k Hk) as (params & Hp & Htime & Hl & Hf).
  rewrite <- Htable in Hp.
  assert (Hstart :
    _backoff_sleep self = None \/ _backoff_strategy self <> Some k ->
    out (_backoff k self) = Ret tt
    /\ exists d, sleeps (evs (_backoff k self)) = [d]
         /\ _backoff_sleep (obj (_backoff k self)) = Some d
         /\ (0 <= d)%Q).
  { intros Hfirst. rewrite (backoff_start self k params Hp Hfirst).
    split; [reflexivity|]. exists (p_time params).
    split; [reflexivity|]. split; [reflexivity|exact Htime]. }
  destruct (_backoff_sleep self) as [d0|] eqn:Hs;
    [|right; apply Hstart; left; reflexivity].
  destruct (decide (_backoff_strategy self = Some k)) as [Hc|Hc];
    [|right; apply Hstart; right; exact Hc].
  specialize (Hd0 d0 eq_refl).
  destruct (num_ge d0 (p_max params)) eqn:Hge.
  { left. rewrite (backoff_ceiling self k params Hp d0 Hs Hc Hge).
    reflexivity. }
  right.
  destruct (String.eqb_spec (p_kind params) "linear") as [Hkind|Hkind].
  - destruct (Hl Hkind) as (step & Hstep & Hpos).
    rewrite (backoff_linear self k params Hp d0 Hs Hc step Hge Hkind Hstep).
    split; [reflexivity|]. exists (num_add d0 step).
    split; [reflexivity|]. split; [reflexivity|].
    rewrite num_add_spec. lra.
  - destruct (Hf Hkind) as (factor & Hfactor & Hpos).
    rewrite (backoff_exponential self k params Hp d0 Hs Hc factor
               Hge Hkind Hfactor).
    split; [reflexivity|]. exists (num_mul d0 factor).
    split; [reflexivity|]. split; [reflexivity|].
    rewrite num_mul_spec. apply Qmult_le_0_compat; assumption.
Qed.

Lemma default_table_provides_witness :
  let self := obj (backoff_calls 4 "http_420" (init [] 1000)) in
  let r := _backoff "http_420" self in
  _backoff_sleep self = Some 480%Q
  /\ (out r = Raise TwitterStreamError
      \/ (out r = Ret tt
          /\ exists d, sleeps (evs r) = [d]
               /\ _backoff_sleep (obj r) = Some d
               /\ (0 <= d)%Q)).
Proof.
  intros self r. split; [reflexivity|].
  apply (default_table_provides self "http_420");
    [reflexivity|right; right; left; reflexivity|].
  intros d0 [= <-]. discriminate.
Defined.

(** *** Connections and the backoff curve *)

Lemma sleeps_bind_nil {A B} (m : M A) (k : A -> M B) :
  (forall s, sleeps (evs (m s)) = []) ->
  (forall a s, sleeps (evs (k a s)) = []) ->
  forall s, sleeps (evs (bind m k s)) = [].
Proof.
  intros Hm Hk s. unfold bind. destruct (out (m s)); cbn [evs].
  - rewrite sleeps_app, Hm, Hk. reflexivity.
  - apply Hm.
Qed.

Lemma forward_no_sleep (alive : nat -> bool) (jd : py) (hs : list handler)
    (i : nat) (self : TwitterStream) :
  sleeps (evs (forward alive jd i hs self)) = [].
Proof.
  revert i. induction hs as [|h hs IH]; intros i; [reflexivity|].
  rewrite forward_cons. destruct (h_is_queue h); [destruct (alive i)|];
    cbn [after evs app sleeps]; try reflexivity; apply IH.
Qed.

Lemma process_one_line_no_sleep (json_loads : string -> decoded)
    (line : string) (alive : nat -> bool) (self : TwitterStream) :
  sleeps (evs (process_one_line json_loads line alive self)) = [].
Proof.
  destruct (String.eqb_spec line "") as [->|Hne]; [reflexivity|].
  destruct (json_loads line) as [jd|err] eqn:Hdec.
  - destruct (is_status jd) as [[|]|e] eqn:Hst.
    + destruct (Z.eq_dec (window_size self) 0) as [Hz|Hnz].
      * rewrite (status_line_zero_window _ _ alive self Hne jd Hdec Hst Hz).
        reflexivity.
      * rewrite (status_line_counted _ _ alive self Hne jd Hdec Hst Hnz).
        cbv zeta. cbn [evs]. rewrite sleeps_app, forward_no_sleep.
        destruct (Z.eqb ((_counter self + 1) mod window_size self) 0);
          reflexivity.
    + rewrite (non_status_line_dropped _ _ alive self Hne jd Hdec Hst).
      reflexivity.
    + rewrite (scalar_line_raises _ _ alive self Hne jd e Hdec Hst).
      reflexivity.
  - rewrite (undecodable_line_dropped _ _ alive self Hne err Hdec).
    reflexivity.
Qed.

Lemma iter_lines_no_sleep (json_loads : string -> decoded)
    (body : list line_in) :
  forall (data_lines : Z) (self : TwitterStream),
    sleeps (evs (iter_lines json_loads body data_lines self)) = [].
Proof.
  induction body as [|l body IH]; intros dl self; [reflexivity|].
  cbn [iter_lines]. apply sleeps_bind_nil.
  - intros s. apply process_one_line_no_sleep.
  - intros _ s. destruct (Z.leb 8 (dl + 1)); [|apply IH].
    apply sleeps_bind_nil; [reflexivity|]. intros _ s'.
    apply sleeps_bind_nil; [reflexivity|]. intros _ s''. apply IH.
Qed.

Section BodyState.

Variable json_loads : string -> decoded.
Variable hs : list handler.
Variable ws : Z.

(** The object after a body whose lines all come back: the counter may
    have moved, and the backoff state is cleared exactly when the count
    of lines reached 8. *)
Lemma iter_lines_state (body : list line_in) :
  forall (data_lines : Z) (self : TwitterStream),
    handlers self = hs -> window_size self = ws ->
    0 <= data_lines < 8 ->
    forallb (line_returns json_loads hs ws) body = true ->
    exists c dl',
      out (iter_lines json_loads body data_lines self) = Ret dl'
      /\ obj (iter_lines json_loads body data_lines self)
         = set_counter c
             (if Z.leb 8 (data_lines + Z.of_nat (length body))
              then set_backoff None None self else self).
Proof.
  induction body as [|l body IH]; intros dl self Hhs Hws Hdl Hok.
  - exists (_counter self), dl. cbn [iter_lines ret out obj].
    split; [reflexivity|].
    destruct (Z.leb_spec 8 (dl + Z.of_nat (length (@nil line_in))))
      as [Hge|Hlt]; [cbn [length] in Hge; lia|].
    destruct self; reflexivity.
  - cbn [forallb] in Hok. apply andb_true_iff in Hok. destruct Hok as [Hl Hok].
    rewrite <- Hhs, <- Hws in Hl.
    destruct (process_one_line_returns json_loads l self Hl)
      as (b & c & evl & Hrun & _ & _).
    rewrite (iter_lines_step json_loads l body dl self _ b evl Hrun).
    unfold after. cbn [out obj].
    assert (Hlen : Z.of_nat (length (l :: body))
                   = 1 + Z.of_nat (length body)).
    { cbn [length]. lia. }
    rewrite Hlen.
    destruct (Z.leb_spec 8 (dl + 1)) as [Hfull|Hroom]; cbn [out obj].
    + destruct (IH 0 (set_backoff None None (set_counter c self))
                   Hhs Hws ltac:(lia) Hok) as (c' & dl' & Hout & Hobj).
      exists c', dl'. split; [exact Hout|]. rewrite Hobj.
      destruct (Z.leb_spec 8 (dl + (1 + Z.of_nat (length body))))
        as [Hge|Hlt]; [|lia].
      destruct (Z.leb 8 (0 + Z.of_nat (length body))); reflexivity.
    + destruct (IH (dl + 1) (set_counter c self) Hhs Hws ltac:(lia) Hok)
        as (c' & dl' & Hout & Hobj).
      exists c', dl'. split; [exact Hout|]. rewrite Hobj.
      replace (dl + 1 + Z.of_nat (length body))
        with (dl + (1 + Z.of_nat (length body))) by lia.
      destruct (Z.leb 8 (dl + (1 + Z.of_nat (length body)))); reflexivity.
Qed.

(** A pass whose body comes back line by line and ends in the tcp way:
    it is the body followed by [_backoff('tcp')]. *)
Lemma tcp_pass (resp : nat) (body : list line_in) (fin : ending)
    (prev : option nat) (self : TwitterStream) :
  handlers self = hs -> window_size self = ws ->
  forallb (line_returns json_loads hs ws) body = true ->
  tcp_ending fin = true ->
  let after_body := obj (iter_lines json_loads body 0 self) in
  let b := _backoff "tcp" after_body in
  let pass := stream_pass json_loads (PostReturns resp body fin) prev self in
  out pass = out b /\ obj pass = obj b
  /\ sleeps (evs pass) = sleeps (evs b).
Proof.
  intros Hhs Hws Hok Hfin. cbv zeta.
  destruct (iter_lines_state body 0 self Hhs Hws ltac:(lia) Hok)
    as (c & dl & Hout & _).
  pose proof (iter_lines_no_sleep json_loads body 0 self) as Hquiet.
  destruct (iter_lines json_loads body 0 self) as [o s1 evb] eqn:Hrun.
  cbn [out obj evs] in *. subst o.
  rewrite stream_pass_connected. cbv zeta. cbn [out obj evs].
  assert (Hsuite :
    try_suite json_loads (PostReturns resp body fin) self
    = after ([Authenticate; Post resp] ++ evb)
        match fin with
        | EndOfStream =>
            after [Log WARNING "Backing off.." []] (_backoff "tcp" s1)
        | Broken e => Run (Raise e) s1 []
        end).
  { unfold try_suite. rewrite !bind_emit. unfold bind at 1. rewrite Hrun.
    cbn [out obj evs]. destruct fin as [|e].
    - rewrite bind_log. unfold after. cbn [out obj evs].
      rewrite <- !app_assoc. reflexivity.
    - unfold after, raise. cbn [out obj evs].
      rewrite <- !app_assoc. reflexivity. }
  assert (Hsl : forall l1 l2 l3 (x : run unit),
             sleeps (((l1 ++ evb) ++ l2 ++ evs x) ++ l3)
             = (sleeps l1 ++ sleeps l2 ++ sleeps (evs x) ++ sleeps l3)%list).
  { intros l1 l2 l3 x. rewrite !sleeps_app, Hquiet, app_nil_r.
    rewrite <- !app_assoc. reflexivity. }
  unfold try_except. rewrite Hsuite. clear Hsuite.
  destruct fin as [|e].
  - unfold after at 1 2 3. cbn [out obj evs].
    destruct (out (_backoff "tcp" s1)) as [u|e] eqn:Hb.
    + unfold after. cbn [out obj evs]. rewrite Hb. cbn [out obj evs].
      split; [reflexivity|]. split; [reflexivity|].
      cbn [out obj evs]. rewrite Hsl. cbn [sleeps app]. apply app_nil_r.
    + assert (Hnone : except_clauses e = None).
      { destruct (backoff_raises _ _ _ Hb) as [->|[[m ->]|[k ->]]];
          reflexivity. }
      unfold after. cbn [out obj evs]. rewrite Hb. cbn [out obj evs].
      rewrite Hnone. cbn [out obj evs].
      split; [reflexivity|]. split; [reflexivity|].
      cbn [out obj evs]. rewrite Hsl. cbn [sleeps app]. apply app_nil_r.
  - unfold after. cbn [out obj evs].
    destruct (connection_end_classified s1)
      as (_ & (k1 & Hk1 & Hr1) & (k2 & Hk2 & Hr2) & (k3 & Hk3 & Hr3) & _).
    destruct e; try discriminate Hfin.
    + rewrite Hk1. cbn [out obj evs]. rewrite Hr1.
      unfold after. cbn [out obj evs].
      split; [reflexivity|]. split; [reflexivity|].
      rewrite !sleeps_app, Hquiet. cbn [sleeps app].
      rewrite ?app_nil_r. reflexivity.
    + rewrite Hk2. cbn [out obj evs]. rewrite Hr2.
      unfold after. cbn [out obj evs].
      split; [reflexivity|]. split; [reflexivity|].
      rewrite !sleeps_app, Hquiet. cbn [sleeps app].
      rewrite ?app_nil_r. reflexivity.
    + rewrite Hk3. cbn [out obj evs]. rewrite Hr3.
      unfold after. cbn [out obj evs].
      split; [reflexivity|]. split; [reflexivity|].
      rewrite !sleeps_app, Hquiet. cbn [sleeps app].
      rewrite ?app_nil_r. reflexivity.
Qed.

End BodyState.

(** [_backoff] does not look at the counter of lines. *)
Lemma backoff_counter (strategy : string) (c : Z) (self : TwitterStream) :
  _backoff strategy (set_counter c self)
  = Run (out (_backoff strategy self))
        (set_counter c (obj (_backoff strategy self)))
        (evs (_backoff strategy self)).
Proof.
  unfold _backoff, bind, get. simpl.
  destruct (_backoff_params self !! strategy) as [params|]; simpl;
    [|reflexivity].
  destruct (_backoff_sleep self) as [sleep|]; simpl; [|reflexivity].
  case_bool_decide as Hactive; simpl; [|reflexivity].
  destruct (num_ge sleep (p_max params)); simpl; [reflexivity|].
  destruct (String.eqb (p_kind params) "linear"); simpl.
  - destruct (p_step params); reflexivity.
  - destruct (p_factor params); reflexivity.
Qed.

Lemma backoff_same_handlers (strategy : string) (self : TwitterStream) :
  handlers (obj (_backoff strategy self)) = handlers self
  /\ window_size (obj (_backoff strategy self)) = window_size self
  /\ _backoff_params (obj (_backoff strategy self)) = _backoff_params self.
Proof.
  destruct (backoff_shape self strategy)
    as [(e & _ & Hobj & _)|(d & _ & Hobj & _)]; cbv zeta in Hobj;
    rewrite Hobj; repeat split.
Qed.

(** A loop over connections that each deliver at least 8 lines. *)
Lemma healthy_loop (json_loads : string -> decoded) (hs : list handler)
    (ws : Z) (params : backoff_spec) (script : list attempt) :
  forallb (healthy json_loads hs ws) script = true ->
  forall (prev : option nat) (self : TwitterStream),
    handlers self = hs -> window_size self = ws ->
    _backoff_params self !! "tcp" = Some params ->
    out (stream_loop json_loads script prev self) = Ret tt
    /\ sleeps (evs (stream_loop json_loads script prev self))
       = repeat (p_time params) (length script).
Proof.
  induction script as [|a script IH]; intros Hok prev self Hhs Hws Htab.
  - split; reflexivity.
  - cbn [forallb] in Hok. apply andb_true_iff in Hok.
    destruct Hok as [Ha Hrest].
    destruct a as [e|resp body fin]; [discriminate Ha|].
    cbn [healthy] in Ha. apply andb_true_iff in Ha. destruct Ha as [Ha Hfin].
    apply andb_true_iff in Ha. destruct Ha as [Hlen Hlines].
    apply Nat.leb_le in Hlen.
    destruct (tcp_pass json_loads hs ws resp body fin prev self
                Hhs Hws Hlines Hfin) as (Ho & Hobj & Hsl).
    destruct (iter_lines_state json_loads hs ws body 0 self Hhs Hws
                ltac:(lia) Hlines) as (c1 & dl & _ & Hst).
    destruct (Z.leb_spec 8 (0 + Z.of_nat (length body))) as [_|Hlt];
      [|lia].
    rewrite Hst in Ho, Hobj, Hsl.
    rewrite (backoff_start (set_counter c1 (set_backoff None None self))
               "tcp" params Htab (or_introl eq_refl)) in Ho, Hobj, Hsl.
    cbn [out obj evs sleeps] in Ho, Hobj, Hsl.
    cbn [stream_loop resp_after length repeat]. unfold bind.
    rewrite Ho. cbn [out obj evs]. rewrite Hobj.
    destruct (IH Hrest (Some resp)
                (set_backoff (Some (p_time params)) (Some "tcp")
                   (set_counter c1 (set_backoff None None self)))
                Hhs Hws Htab) as [IHo IHs].
    split; [exact IHo|]. rewrite sleeps_app, Hsl, IHs. reflexivity.
Qed.

(** X16: connections that each deliver at least 8 lines, every line
    coming back from [process_one_line], never wear the backoff out.
    However many of them end (by the server closing, a stall, a
    connection or a socket error), the loop goes on, and the wait before
    every reconnection is the initial delay of tcp. *)
Theorem healthy_connections_restart_curve (json_loads : string -> decoded)
    (script : list attempt) (params : backoff_spec)
    (self : TwitterStream) :
  forallb (healthy json_loads (handlers self) (window_size self)) script
  = true ->
  _backoff_params self !! "tcp" = Some params ->
  out (stream json_loads script self) = Ret tt
  /\ sleeps (evs (stream json_loads script self))
     = repeat (p_time params) (length script).
Proof.
  intros Hok Htab. unfold stream. rewrite bind_log. unfold after.
  cbn [out evs sleeps app].
  exact (healthy_loop json_loads _ _ params script Hok None self
           eq_refl eq_refl Htab).
Qed.

Lemma healthy_connections_restart_curve_witness :
  let body := {| text := status_line; alive := fun _ => true |}
              :: repeat keep_alive 7 in
  let script := [PostReturns 0 body EndOfStream;
                 PostReturns 1 body (Broken ReadTimeout);
                 PostReturns 2 body (Broken SocketError)] in
  let self := init [file_handler; queue_handler] 1000 in
  out (stream loads script self) = Ret tt
  /\ sleeps (evs (stream loads script self))
     = repeat (p_time tcp_spec) 3.
Proof.
  intros body script self.
  apply (healthy_connections_restart_curve loads script tcp_spec self);
    vm_compute; reflexivity.
Defined.

(** A loop over connections that each end before their 8th line. *)
Lemma short_lived_loop (json_loads : string -> decoded) (hs : list handler)
    (ws : Z) (script : list attempt) :
  forallb (short_lived json_loads hs ws) script = true ->
  forall (prev : option nat) (c : Z) (self : TwitterStream),
    handlers self = hs -> window_size self = ws ->
    out (stream_loop json_loads script prev (set_counter c self))
    = out (backoff_calls (length script) "tcp" self)
    /\ sleeps (evs (stream_loop json_loads script prev (set_counter c self)))
       = sleeps (evs (backoff_calls (length script) "tcp" self))
    /\ exists c',
         obj (stream_loop json_loads script prev (set_counter c self))
         = set_counter c' (obj (backoff_calls (length script) "tcp" self)).
Proof.
  induction script as [|a script IH]; intros Hok prev c self Hhs Hws.
  - split; [reflexivity|]. split; [reflexivity|]. exists c. reflexivity.
  - cbn [forallb] in Hok. apply andb_true_iff in Hok.
    destruct Hok as [Ha Hrest].
    destruct a as [e|resp body fin]; [discriminate Ha|].
    cbn [short_lived] in Ha. apply andb_true_iff in Ha.
    destruct Ha as [Ha Hfin].
    apply andb_true_iff in Ha. destruct Ha as [Hlen Hlines].
    apply Nat.ltb_lt in Hlen.
    destruct (tcp_pass json_loads hs ws resp body fin prev
                (set_counter c self) Hhs Hws Hlines Hfin)
      as (Ho & Hobj & Hsl).
    destruct (iter_lines_state json_loads hs ws body 0 (set_counter c self)
                Hhs Hws ltac:(lia) Hlines) as (c1 & dl & _ & Hst).
    destruct (Z.leb_spec 8 (0 + Z.of_nat (length body))) as [Hge|_];
      [lia|].
    change (set_counter c1 (set_counter c self))
      with (set_counter c1 self) in Hst.
    rewrite Hst, backoff_counter in Ho, Hobj, Hsl.
    cbn [out obj evs] in Ho, Hobj, Hsl.
    destruct (backoff_same_handlers "tcp" self) as (Hh & Hw & _).
    cbn [stream_loop resp_after length backoff_calls]. unfold bind.
    rewrite Ho.
    destruct (out (_backoff "tcp" self)) as [u|e] eqn:Hb; cbn [out obj evs].
    + rewrite Hobj.
      destruct (IH Hrest (Some resp) c1 (obj (_backoff "tcp" self))
                  ltac:(congruence) ltac:(congruence))
        as (IHo & IHs & c' & IHobj).
      split; [exact IHo|]. split; [|exists c'; exact IHobj].
      rewrite !sleeps_app, Hsl, IHs. reflexivity.
    + split; [reflexivity|]. split; [exact Hsl|].
      exists c1. exact Hobj.
Qed.

(** X17: connections that each end before their 8th line walk the tcp
    curve, as the lines they deliver never reset it (the count of lines
    starts again with every connection).  A session of such connections,
    [process_one_line] returning on every line, sleeps as a run of
    [_backoff('tcp')], one call per connection, ends as that run ends,
    and leaves the same delay behind. *)
Theorem short_connections_follow_tcp_curve (json_loads : string -> decoded)
    (script : list attempt) (self : TwitterStream) :
  forallb (short_lived json_loads (handlers self) (window_size self)) script
  = true ->
  let session := stream json_loads script self in
  let calls := backoff_calls (length script) "tcp" self in
  out session = out calls
  /\ sleeps (evs session) = sleeps (evs calls)
  /\ _backoff_sleep (obj session) = _backoff_sleep (obj calls).
Proof.
  intros Hok. cbv zeta. unfold stream. rewrite bind_log. unfold after.
  cbn [out obj evs sleeps app].
  destruct (short_lived_loop json_loads _ _ script Hok None (_counter self)
              self eq_refl eq_refl) as (Ho & Hs & c' & Hobj).
  replace (set_counter (_counter self) self) with self in Ho, Hs, Hobj
    by (destruct self; reflexivity).
  split; [exact Ho|]. split; [exact Hs|]. rewrite Hobj. reflexivity.
Qed.

Lemma short_connections_follow_tcp_curve_witness :
  let body := {| text := status_line; alive := fun _ => true |}
              :: repeat keep_alive 6 in
  let script := [PostReturns 0 body EndOfStream;
                 PostReturns 1 body (Broken ReadTimeout);
                 PostReturns 2 [] (Broken ConnectionError)] in
  let self := init [file_handler; queue_handler] 1000 in
  let session := stream loads script self in
  let calls := backoff_calls 3 "tcp" self in
  out session = out calls
  /\ sleeps (evs session) = sleeps (evs calls)
  /\ _backoff_sleep (obj session) = _backoff_sleep (obj calls).
Proof.
  intros body script self.
  apply (short_connections_follow_tcp_curve loads script self).
  vm_compute. reflexivity.
Defined.

(** Once a call has raised, no later call is made. *)
Lemma backoff_calls_raised (k : nat) (strategy : string) (n : nat) :
  forall (self : TwitterStream) (e : exn),
    out (backoff_calls n strategy self) = Raise e ->
    backoff_calls (n + k) strategy self = backoff_calls n strategy self.
Proof.
  induction n as [|n IH]; intros self e He; [discriminate He|].
  cbn [backoff_calls Nat.add] in *. unfold bind in *.
  destruct (out (_backoff strategy self)) as [u|e'] eqn:Hb;
    cbn [out] in He; [|reflexivity].
  rewrite (IH _ e He). reflexivity.
Qed.

(** The tcp curve of the module's table, from a fresh object: 65 calls
    return, sleeping 0, 0.25, ..., 16, and the 66th raises. *)
Lemma tcp_default_run (hs : list handler) (ws : Z) (n : nat) :
  let r := backoff_calls n "tcp" (init hs ws) in
  if Nat.leb n 65
  then out r = Ret tt /\ sleeps (evs r) = quarter_steps n
  else out r = Raise TwitterStreamError
       /\ sleeps (evs r) = quarter_steps 65.
Proof.
  cbv zeta. destruct (Nat.leb n 65) eqn:Hn.
  - apply Nat.leb_le in Hn.
    do 66 (destruct n as [|n]; [vm_compute; split; reflexivity|]). lia.
  - apply Nat.leb_gt in Hn.
    replace n with (66 + (n - 66))%nat by lia.
    rewrite (backoff_calls_raised (n - 66) "tcp" 66 (init hs ws)
               TwitterStreamError) by (vm_compute; reflexivity).
    vm_compute. split; reflexivity.
Qed.

(** X18: under the table of the module, a new session whose connections
    each end before their 8th line survives 65 of them, waiting 0, 0.25,
    0.5, ..., 16 seconds before the reconnections, and is ended by
    TwitterStreamError at the 66th, whatever lines [process_one_line]
    returned on in between. *)
Theorem short_connections_exhaust_tcp (json_loads : string -> decoded)
    (hs : list handler) (ws : Z) (script : list attempt) :
  forallb (short_lived json_loads hs ws) script = true ->
  let session := stream json_loads script (init hs ws) in
  if Nat.leb (length script) 65
  then out session = Ret tt
       /\ sleeps (evs session) = quarter_steps (length script)
  else out session = Raise TwitterStreamError
       /\ sleeps (evs session) = quarter_steps 65.
Proof.
  intros Hok. cbv zeta. unfold stream. rewrite bind_log. unfold after.
  cbn [out obj evs sleeps app].
  destruct (short_lived_loop json_loads hs ws script Hok None 0
              (init hs ws) eq_refl eq_refl) as (Ho & Hs & _).
  change (set_counter 0 (init hs ws)) with (init hs ws) in Ho, Hs.
  rewrite Ho, Hs. exact (tcp_default_run hs ws (length script)).
Qed.

Lemma short_connections_exhaust_tcp_witness :
  let script := repeat (PostReturns 0 [keep_alive] EndOfStream) 66 in
  let session := stream loads script (init [queue_handler] 1000) in
  out session = Raise TwitterStreamError
  /\ sleeps (evs session) = quarter_steps 65.
Proof.
  intros script.
  exact (short_connections_exhaust_tcp loads [queue_handler] 1000 script
           eq_refl).
Defined.
